(** * The screenshot endpoint: [src/app/api/screenshot/route.ts]

    The route validates a JSON body with a zod schema, drives one puppeteer
    browser through a linear chain of awaited calls, and answers with a data
    URI or with a generic failure.

    The embedding keeps the shape of the source:
    - the parsed body is a [JSON] value, numbers being the rational value of
      the JavaScript number (comparisons against the integer bounds of the
      schema are exact; the one arithmetic operation, [zoom / 100], is the
      rational quotient rounded to the nearest IEEE-754 double, ties to
      even: [binary64]);
    - zod schemas are functions from an optional input ([None] is
      [undefined]) to either a list of issues or a value;
    - puppeteer is an opaque collaborator: every call that the body of the
      handler makes is recorded, with its outcome, in a chronological
      trace; the outcome (resolve with a payload, or reject) is read from a
      [World], a function of the trace so far;
    - the listener registered with [page.on] runs later, once for every
      request that the browser intercepts: the method calls it makes on
      such a request are no part of that trace, and are modelled apart
      ([request_listener_calls]);
    - [try { ... } catch] is an error monad run by [POST].

    Definitions come first.  The properties follow; those about the calls
    of a run go through a refinement: a run of the route is an attempt at a
    fixed script of calls that the first rejection stops
    ([capture_implements_script]). *)

From Stdlib Require Import List String Ascii Bool ZArith QArith Qpower Lia.
From Stdlib Require Import Strings.Byte.
Import ListNotations.

Local Open Scope string_scope.
Local Open Scope list_scope.

Set Warnings "-register-all".

(** ** JSON values, as returned by [req.json()] *)

Inductive JSON : Type :=
| JNull
| JBool (b : bool)
| JNum (q : Q)
| JStr (s : string)
| JArr (items : list JSON)
| JObj (props : list (string * JSON)).

(** Property read [o[k]]; [None] is [undefined]. *)
Fixpoint get (k : string) (o : list (string * JSON)) : option JSON :=
  match o with
  | [] => None
  | (k', v) :: rest => if String.eqb k k' then Some v else get k rest
  end.

(** ** Strings *)

(** [s.includes(sub)]: [sub] occurs somewhere in [s]. *)
Fixpoint includes (s sub : string) : bool :=
  if String.prefix sub s then true
  else match s with
       | EmptyString => false
       | String _ rest => includes rest sub
       end.

(** ** Numbers *)

Definition Qlt_bool (x y : Q) : bool :=
  (Qnum x * QDen y <? Qnum y * QDen x)%Z.

(** The integer nearest to [n / d], for [0 <= n] and [0 < d]; a tie goes
    to the even one. *)
Definition round_half_even (n d : Z) : Z :=
  let f := (n / d)%Z in
  match (2 * (n mod d) ?= d)%Z with
  | Lt => f
  | Gt => (f + 1)%Z
  | Eq => if Z.even f then f else (f + 1)%Z
  end.

(** The binary exponent of [n / d], for [0 < n] and [0 < d]: the [e] with
    [2 ^ e <= n / d < 2 ^ (e + 1)]. *)
Definition exponent (n d : Z) : Z :=
  let e0 := (Z.log2 n - Z.log2 d)%Z in
  if (d * 2 ^ Z.log2 n <=? n * 2 ^ Z.log2 d)%Z then e0 else (e0 - 1)%Z.

(** The result of a JavaScript arithmetic operation whose exact value is
    [q]: the IEEE-754 binary64 number nearest to [q], ties to even.  The
    significand has 53 bits, so the spacing of the doubles around [q] is
    [2 ^ (e - 52)] for the exponent [e] of [q], and [2 ^ (-1074)] among the
    subnormal numbers.  With [k] the exponent of that spacing, the result
    is [m * 2 ^ k] for the integer [m] nearest to [q / 2 ^ k]; numerator
    and denominator of that quotient are scaled by [2 ^ 1074] to stay
    integers.  Overflow to an infinity is left out: the one operation of
    the route divides a double by 100. *)
Definition binary64 (q : Q) : Q :=
  let n := Z.abs (Qnum q) in
  let d := Zpos (Qden q) in
  if (n =? 0)%Z then 0%Q
  else
    let k := Z.max (exponent n d - 52) (-1074) in
    let m := round_half_even (n * 2 ^ 1074) (d * 2 ^ (k + 1074)) in
    Qred (inject_Z (Z.sgn (Qnum q) * m) * 2 ^ k)%Q.

(** ** [Buffer.prototype.toString("base64")]: RFC 4648 with padding *)

Module Base64.

Definition alphabet : string :=
  "ABCDEFGHIJKLMNOPQRSTUVWXYZabcdefghijklmnopqrstuvwxyz0123456789+/".

Definition digit (n : N) : string :=
  match String.get (N.to_nat n) alphabet with
  | Some c => String c EmptyString
  | None => EmptyString
  end.

Definition sextet (i : N) (group : N) : string :=
  digit (N.land (N.shiftr group (6 * (3 - i))) 63).

Fixpoint encode (bs : list byte) : string :=
  match bs with
  | [] => ""
  | [a] =>
      let g := N.shiftl (Byte.to_N a) 16 in
      sextet 0 g ++ sextet 1 g ++ "=="
  | [a; b] =>
      let g := N.lor (N.shiftl (Byte.to_N a) 16) (N.shiftl (Byte.to_N b) 8) in
      sextet 0 g ++ sextet 1 g ++ sextet 2 g ++ "="
  | a :: b :: c :: rest =>
      let g := N.lor (N.lor (N.shiftl (Byte.to_N a) 16)
                            (N.shiftl (Byte.to_N b) 8)) (Byte.to_N c) in
      sextet 0 g ++ sextet 1 g ++ sextet 2 g ++ sextet 3 g ++ encode rest
  end.

End Base64.

(** ** The validated request: the output type of [screenshotSchema] *)

Inductive Format : Type := png | jpeg | pdf.

Definition Format_to_string (f : Format) : string :=
  match f with
  | png => "png"
  | jpeg => "jpeg"
  | pdf => "pdf"
  end.

Record Validated : Type := mkValidated {
  url : string;
  fullSize : bool;
  useProxy : bool;
  noAds : bool;
  width : Q;
  height : Q;
  zoom : Q;
  format : Format;
  quality : Q;
  delay : Q;
  css : option string
}.

(** ** zod *)

Module Zod.

Inductive IssueCode : Type :=
| invalid_type
| invalid_string
| invalid_enum_value
| too_small
| too_big.

Record Issue : Type := mkIssue { path : list string; code : IssueCode }.

(** A schema reads an input that may be [undefined]. *)
Definition Schema (A : Type) : Type := option JSON -> list IssueCode + A.

Definition Result (A : Type) : Type := (list Issue + A)%type.

Definition refine {A : Type} (check : A -> option IssueCode) (s : Schema A)
  : Schema A :=
  fun input =>
    match s input with
    | inr v => match check v with
               | Some c => inl [c]
               | None => inr v
               end
    | inl cs => inl cs
    end.

Definition string_ : Schema string :=
  fun input =>
    match input with
    | Some (JStr s) => inr s
    | _ => inl [invalid_type]
    end.

Definition boolean : Schema bool :=
  fun input =>
    match input with
    | Some (JBool b) => inr b
    | _ => inl [invalid_type]
    end.

Definition number : Schema Q :=
  fun input =>
    match input with
    | Some (JNum q) => inr q
    | _ => inl [invalid_type]
    end.

(** [.min(lo)]: inclusive, the issue is raised when [v < lo]. *)
Definition min (lo : Q) : Schema Q -> Schema Q :=
  refine (fun v => if Qlt_bool v lo then Some too_small else None).

(** [.max(hi)]: inclusive, the issue is raised when [v > hi]. *)
Definition max (hi : Q) : Schema Q -> Schema Q :=
  refine (fun v => if Qlt_bool hi v then Some too_big else None).

(** [z.enum(["png", "jpeg", "pdf"])] *)
Definition enum_Format : Schema Format :=
  fun input =>
    match input with
    | Some (JStr s) =>
        if String.eqb s "png" then inr png
        else if String.eqb s "jpeg" then inr jpeg
        else if String.eqb s "pdf" then inr pdf
        else inl [invalid_enum_value]
    | _ => inl [invalid_type]
    end.

(** [.default(d)]: [undefined] is replaced by [d]; each default of the
    route's schema satisfies its inner schema. *)
Definition default {A : Type} (d : A) (s : Schema A) : Schema A :=
  fun input =>
    match input with
    | None => inr d
    | Some _ => s input
    end.

Definition optional {A : Type} (s : Schema A) : Schema (option A) :=
  fun input =>
    match input with
    | None => inr None
    | Some _ => match s input with
                | inr v => inr (Some v)
                | inl cs => inl cs
                end
    end.

(** One key of [z.object]: the issues of the key's schema get its path. *)
Definition key {A : Type} (o : list (string * JSON)) (k : string)
           (s : Schema A) : Result A :=
  match s (get k o) with
  | inr v => inr v
  | inl cs => inl (map (mkIssue [k]) cs)
  end.

(** [z.object] parses every key and gathers all issues. *)
Definition ap {A B : Type} (f : Result (A -> B)) (a : Result A) : Result B :=
  match f, a with
  | inr f', inr a' => inr (f' a')
  | inr _, inl ia => inl ia
  | inl i, inr _ => inl i
  | inl i, inl ia => inl (i ++ ia)
  end.

End Zod.

Notation "s '.>' f" := (f s) (at level 40, left associativity, only parsing).
Notation "f '<*>' a" := (Zod.ap f a) (at level 41, left associativity).

(** ** puppeteer: the calls the route makes, with their arguments *)

Module LaunchOptions.
Record t : Type := mk { headless : bool }.
End LaunchOptions.

Module Viewport.
Record t : Type := mk { width : Q; height : Q; deviceScaleFactor : Q }.
End Viewport.

Module GoToOptions.
Record t : Type := mk { waitUntil : string }.
End GoToOptions.

Module PDFOptions.
Record t : Type := mk { format : string; printBackground : bool }.
End PDFOptions.

Module ScreenshotOptions.
Record t : Type := mk { fullPage : bool; type : Format; quality : option Q }.
End ScreenshotOptions.

(** An intercepted network request, as the listener reads it. *)
Module HTTPRequest.
Record t : Type := mk { resourceType : string; url : string }.
End HTTPRequest.

(** What the listener does with an intercepted request. *)
Inductive Interception : Type :=
| abort      (* request.abort() *)
| continue.  (* request.continue() *)

(** The calls that the body of the handler makes itself, lines 24-92.  The
    calls that the listener makes on an intercepted request are not among
    them: see [RequestCall]. *)
Inductive Call : Type :=
| puppeteer_launch (options : LaunchOptions.t)
| browser_newPage
| page_setViewport (viewport : Viewport.t)
| page_setRequestInterception (value : bool)
| page_on (event : string) (listener : HTTPRequest.t -> Interception)
| page_goto (target : string) (options : GoToOptions.t)
| page_evaluate_appendStyle (css : string)
| setTimeout (ms : Q)
| page_pdf (options : PDFOptions.t)
| page_screenshot (options : ScreenshotOptions.t)
| browser_close.

(** A call either rejects (throws) or resolves; [page.pdf] and
    [page.screenshot] resolve with the captured bytes. *)
Inductive Outcome : Type :=
| Rejected
| Resolved (payload : list byte).

(** The trace: the calls the handler has made so far, oldest first, each
    with its outcome. *)
Definition Trace : Type := list (Call * Outcome).

(** The collaborator: the outcome of a call, given what happened before. *)
Definition World : Type := Trace -> Call -> Outcome.

(** ** The body of [try]: calls in sequence, the first throw ends it *)

Inductive Error : Type :=
| SyntaxError                         (* req.json() on a body that is not JSON *)
| ZodError (issues : list Zod.Issue)  (* screenshotSchema.parse *)
| CallError (c : Call).               (* a rejected collaborator call *)

Definition M (A : Type) : Type :=
  World -> Trace -> Trace * (Error + A).

Definition ret {A : Type} (a : A) : M A :=
  fun _ trace => (trace, inr a).

Definition throw {A : Type} (e : Error) : M A :=
  fun _ trace => (trace, inl e).

Definition bind {A B : Type} (m : M A) (k : A -> M B) : M B :=
  fun w trace =>
    match m w trace with
    | (trace', inr a) => k a w trace'
    | (trace', inl e) => (trace', inl e)
    end.

Notation "x <- m ;; k" := (bind m (fun x => k))
  (at level 61, m at next level, right associativity).
Notation "m ;;; k" := (bind m (fun _ => k))
  (at level 61, right associativity).

(** A call to the collaborator (awaited where it returns a promise): it is
    made, then resolves or throws. *)
Definition call (c : Call) : M (list byte) :=
  fun w trace =>
    match w trace c with
    | Resolved payload => (trace ++ [(c, Resolved payload)], inr payload)
    | Rejected => (trace ++ [(c, Rejected)], inl (CallError c))
    end.

(** [await new Promise((resolve) => setTimeout(resolve, ms))]: a timer
    always fires. *)
Definition sleep (ms : Q) : M (list byte) :=
  fun _ trace => (trace ++ [(setTimeout ms, Resolved [])], inr []).

(** [if (b) { m }] *)
Definition when {A : Type} (b : bool) (m : M A) : M unit :=
  if b then m ;;; ret tt else ret tt.

(** ** The fetch request and the response *)

Module Request.
(** [json]: the result of [await req.json()]; [None] when it rejects. *)
Record t : Type := mk { json : option JSON }.
End Request.

Module NextResponse.
Record t : Type := mk { status : Z; body : JSON }.
(** [NextResponse.json(body)] answers 200 unless [init.status] is given. *)
Definition json (body : JSON) (init_status : option Z) : t :=
  mk (match init_status with Some s => s | None => 200%Z end) body.
End NextResponse.

(** One run of the route: the calls made, what [console.error] printed, and
    the response. *)
Record Run : Type := mkRun {
  calls : Trace;
  console_error : list (string * Error);
  response : NextResponse.t
}.

(** The request listener installed when [noAds] is set. *)
Definition request_listener (request : HTTPRequest.t) : Interception :=
  let resourceType := HTTPRequest.resourceType request in
  if String.eqb resourceType "image"
     || String.eqb resourceType "media"
     || String.eqb resourceType "script"
     || includes (HTTPRequest.url request) "ads"
     || includes (HTTPRequest.url request) "analytics"
  then abort
  else continue.

(** A method call that the listener makes on an intercepted request. *)
Inductive RequestCall : Type :=
| request_resourceType   (* request.resourceType() *)
| request_url            (* request.url() *)
| request_abort          (* request.abort() *)
| request_continue.      (* request.continue() *)

(** Lines 40-52 call by call, for one intercepted request, oldest first.
    The browser runs the listener once for every request it intercepts.
    [||] evaluates its right operand only when the left one is false, so
    [request.url()] is called once more for each of the two [includes]
    tests that is reached. *)
Definition request_listener_calls (request : HTTPRequest.t)
  : list RequestCall :=
  let resourceType := HTTPRequest.resourceType request in
  request_resourceType ::
  if String.eqb resourceType "image" then [request_abort]
  else if String.eqb resourceType "media" then [request_abort]
  else if String.eqb resourceType "script" then [request_abort]
  else
    request_url ::
    if includes (HTTPRequest.url request) "ads" then [request_abort]
    else
      request_url ::
      if includes (HTTPRequest.url request) "analytics" then [request_abort]
      else [request_continue].

(** Truthiness of a string: every string but the empty one. *)
Definition truthy (s : string) : bool := negb (String.eqb s "").

Section Route.

(** [z.string().url()] asks the platform's URL parser; it is not part of
    the route. *)
Variable URL_ok : string -> bool.

Definition z_url : Zod.Schema string -> Zod.Schema string :=
  Zod.refine (fun s => if URL_ok s then None else Some Zod.invalid_string).

Definition screenshotSchema (data : JSON) : Zod.Result Validated :=
  match data with
  | JObj o =>
      inr mkValidated
      <*> Zod.key o "url" (Zod.string_ .> z_url)
      <*> Zod.key o "fullSize" (Zod.boolean .> Zod.default false)
      <*> Zod.key o "useProxy" (Zod.boolean .> Zod.default false)
      <*> Zod.key o "noAds" (Zod.boolean .> Zod.default false)
      <*> Zod.key o "width" (Zod.number .> Zod.min 100 .> Zod.max 3840)
      <*> Zod.key o "height" (Zod.number .> Zod.min 100 .> Zod.max 2160)
      <*> Zod.key o "zoom" (Zod.number .> Zod.min 10 .> Zod.max 200)
      <*> Zod.key o "format" (Zod.enum_Format .> Zod.default png)
      <*> Zod.key o "quality"
            (Zod.number .> Zod.min 0 .> Zod.max 100 .> Zod.default 80)
      <*> Zod.key o "delay"
            (Zod.number .> Zod.min 0 .> Zod.max 10000 .> Zod.default 0)
      <*> Zod.key o "css" (Zod.string_ .> Zod.optional)
  | _ => inl [Zod.mkIssue [] Zod.invalid_type]
  end.

(** [screenshotSchema.parse(data)] throws a [ZodError] on any issue. *)
Definition screenshotSchema_parse (data : JSON) : M Validated :=
  match screenshotSchema data with
  | inr validated => ret validated
  | inl issues => throw (ZodError issues)
  end.

Definition req_json (req : Request.t) : M JSON :=
  match Request.json req with
  | Some data => ret data
  | None => throw SyntaxError
  end.

(** Lines 24-101: everything after validation. *)
Definition capture (validated : Validated) : M NextResponse.t :=
  call (puppeteer_launch (LaunchOptions.mk true)) ;;;
  call browser_newPage ;;;
  call (page_setViewport
          (Viewport.mk (width validated) (height validated)
                       (binary64 (zoom validated / 100)))) ;;;
  when (noAds validated)
    (call (page_setRequestInterception true) ;;;
     call (page_on "request" request_listener)) ;;;
  call (page_goto (url validated) (GoToOptions.mk "networkidle0")) ;;;
  (* if (validated.css): undefined and the empty string are falsy *)
  match css validated with
  | Some css => when (truthy css) (call (page_evaluate_appendStyle css))
  | None => ret tt
  end ;;;
  when (Qlt_bool 0 (delay validated))
    (sleep (delay validated)) ;;;
  screenshotData <-
    match format validated with
    | pdf => call (page_pdf (PDFOptions.mk "A4" true))
    | _ =>
        call (page_screenshot
                 (ScreenshotOptions.mk
                    (fullSize validated)
                    (format validated)
                    (match format validated with
                     | jpeg => Some (quality validated)
                     | _ => None
                     end)))
    end ;;
  call browser_close ;;;
  let base64Screenshot := Base64.encode screenshotData in
  ret (NextResponse.json
         (JObj [("success", JBool true);
                ("screenshot",
                 JStr ("data:"
                       ++ match format validated with
                          | pdf => "application/pdf"
                          | _ => "image/" ++ Format_to_string (format validated)
                          end
                       ++ ";base64," ++ base64Screenshot))])
         None).

(** Lines 20-101: the body of [try]. *)
Definition POST_try (req : Request.t) : M NextResponse.t :=
  data <- req_json req ;;
  validated <- screenshotSchema_parse data ;;
  capture validated.

(** Lines 19-106: [try] the body, [catch] any error. *)
Definition POST (w : World) (req : Request.t) : Run :=
  match POST_try req w [] with
  | (trace, inr res) => mkRun trace [] res
  | (trace, inl error) =>
      mkRun trace [("Screenshot error:", error)]
            (NextResponse.json
               (JObj [("success", JBool false);
                      ("error", JStr "Failed to capture screenshot")])
               (Some 500%Z))
  end.

End Route.

(** ** The two responses of the route *)

Definition failure_response : NextResponse.t :=
  NextResponse.mk 500 (JObj [("success", JBool false);
                             ("error", JStr "Failed to capture screenshot")]).

Definition success_response (screenshot : string) : NextResponse.t :=
  NextResponse.mk 200 (JObj [("success", JBool true);
                             ("screenshot", JStr screenshot)]).

(** A collaborator that rejects nothing. *)
Definition cooperative (w : World) : Prop := forall trace c, w trace c <> Rejected.

(** *** The route as a script

    The calls of [capture] do not depend on what earlier calls resolved
    with, so a run is an attempt at a fixed list of calls that stops at the
    first rejection. *)

Definition capture_call (v : Validated) : Call :=
  match format v with
  | pdf => page_pdf (PDFOptions.mk "A4" true)
  | _ => page_screenshot
           (ScreenshotOptions.mk (fullSize v) (format v)
              (match format v with jpeg => Some (quality v) | _ => None end))
  end.

Definition script (v : Validated) : list Call :=
  puppeteer_launch (LaunchOptions.mk true)
  :: browser_newPage
  :: page_setViewport
       (Viewport.mk (width v) (height v) (binary64 (zoom v / 100)))
  :: (if noAds v
      then [page_setRequestInterception true; page_on "request" request_listener]
      else [])
  ++ page_goto (url v) (GoToOptions.mk "networkidle0")
  :: match css v with
     | Some c => if truthy c then [page_evaluate_appendStyle c] else []
     | None => []
     end
  ++ (if Qlt_bool 0 (delay v) then [setTimeout (delay v)] else [])
  ++ [capture_call v; browser_close].

(** The outcome of a scripted call: timers always fire. *)
Definition outcome (w : World) (trace : Trace) (c : Call) : Outcome :=
  match c with
  | setTimeout _ => Resolved []
  | _ => w trace c
  end.

Fixpoint attempt (w : World) (cs : list Call) (trace : Trace)
  : Trace * option Error :=
  match cs with
  | [] => (trace, None)
  | c :: rest =>
      match outcome w trace c with
      | Resolved payload => attempt w rest (trace ++ [(c, Resolved payload)])
      | Rejected => (trace ++ [(c, Rejected)], Some (CallError c))
      end
  end.

Definition thrown {A : Type} (r : Error + A) : option Error :=
  match r with
  | inl e => Some e
  | inr _ => None
  end.

Definition implements {A : Type} (m : M A) (cs : list Call) : Prop :=
  forall w trace,
    (fst (m w trace), thrown (snd (m w trace))) = attempt w cs trace.

Definition is_timer (c : Call) : bool :=
  match c with
  | setTimeout _ => true
  | _ => false
  end.

(** ** Vocabulary of the properties *)

(** What the spec calls the filtering policy. *)
Definition aborted_by_policy (request : HTTPRequest.t) : Prop :=
  HTTPRequest.resourceType request = "image" \/
  HTTPRequest.resourceType request = "media" \/
  HTTPRequest.resourceType request = "script" \/
  (exists a b, HTTPRequest.url request = (a ++ "ads" ++ b)%string) \/
  (exists a b, HTTPRequest.url request = (a ++ "analytics" ++ b)%string).

(** A step of the request fails: the body is not JSON, validation raises
    issues, or a collaborator call rejects. *)
Definition step_fails (URL_ok : string -> bool) (w : World) (req : Request.t)
  : Prop :=
  Request.json req = None \/
  (exists data issues,
      Request.json req = Some data /\ screenshotSchema URL_ok data = inl issues) \/
  (exists c, In (c, Rejected) (calls (POST URL_ok w req))).

Definition agree_except (k : string) (o1 o2 : list (string * JSON)) : Prop :=
  forall k', k' <> k -> get k' o1 = get k' o2.

(** Two validation results after which the route behaves the same. *)
Definition same_run (r1 r2 : Zod.Result Validated) : Prop :=
  match r1, r2 with
  | inl issues1, inl issues2 => issues1 = issues2
  | inr v1, inr v2 => capture v1 = capture v2
  | _, _ => False
  end.

Definition issues_of {A : Type} (r : Zod.Result A) : list Zod.Issue :=
  match r with
  | inl issues => issues
  | inr _ => []
  end.

Definition is_ok {A : Type} (r : Zod.Result A) : bool :=
  match r with
  | inl _ => false
  | inr _ => true
  end.

(** [x] is the double nearest to [q].  For [q] in the binade
    [2 ^ e <= q < 2 ^ (e + 1)] of the normal range, the doubles around [q]
    are the multiples of [2 ^ (e - 52)]: [x] is one of them, at most half
    that spacing away from [q], and the one with the even significand when
    [q] lies halfway between two. *)
Definition nearest_double (q x : Q) : Prop :=
  exists e m : Z,
    (-1022 <= e < 1023)%Z /\
    (2 ^ e <= q /\ q < 2 ^ (e + 1))%Q /\
    (x == inject_Z m * 2 ^ (e - 52))%Q /\
    (x - 2 ^ (e - 53) <= q /\ q <= x + 2 ^ (e - 53))%Q /\
    ((q == x - 2 ^ (e - 53) \/ q == x + 2 ^ (e - 53))%Q -> Z.even m = true).

(** ** What the schema reads from a body *)

(** What a key of the body must hold for the schema to produce [v]. *)
Definition reads_default {A : Type} (inj : A -> JSON) (d : A)
           (x : option JSON) (v : A) : Prop :=
  (x = None /\ v = d) \/ x = Some (inj v).

Definition reads_number (lo hi : Q) (x : option JSON) (q : Q) : Prop :=
  x = Some (JNum q) /\ (lo <= q)%Q /\ (q <= hi)%Q.

Definition reads_number_default (lo hi d : Q) (x : option JSON) (q : Q)
  : Prop :=
  (x = None /\ q = d) \/ reads_number lo hi x q.

Definition reads (URL_ok : string -> bool)
           (o : list (string * JSON)) (v : Validated) : Prop :=
  (get "url" o = Some (JStr (url v)) /\ URL_ok (url v) = true) /\
  reads_default JBool false (get "fullSize" o) (fullSize v) /\
  reads_default JBool false (get "useProxy" o) (useProxy v) /\
  reads_default JBool false (get "noAds" o) (noAds v) /\
  reads_number 100 3840 (get "width" o) (width v) /\
  reads_number 100 2160 (get "height" o) (height v) /\
  reads_number 10 200 (get "zoom" o) (zoom v) /\
  reads_default (fun f => JStr (Format_to_string f)) png
                (get "format" o) (format v) /\
  reads_number_default 0 100 80 (get "quality" o) (quality v) /\
  reads_number_default 0 10000 0 (get "delay" o) (delay v) /\
  get "css" o = option_map JStr (css v).

(** The request table of the spec, numbers read as numbers. *)
Definition absent_or (P : option JSON -> Prop) (x : option JSON) : Prop :=
  x = None \/ P x.

Definition is_boolean (x : option JSON) : Prop := exists b, x = Some (JBool b).

Definition is_string (x : option JSON) : Prop := exists s, x = Some (JStr s).

Definition is_format (x : option JSON) : Prop :=
  x = Some (JStr "png") \/ x = Some (JStr "jpeg") \/ x = Some (JStr "pdf").

Definition number_within (lo hi : Q) (x : option JSON) : Prop :=
  exists q, x = Some (JNum q) /\ (lo <= q)%Q /\ (q <= hi)%Q.

Definition documented_request (URL_ok : string -> bool)
           (o : list (string * JSON)) : Prop :=
  (exists s, get "url" o = Some (JStr s) /\ URL_ok s = true) /\
  absent_or is_boolean (get "fullSize" o) /\
  absent_or is_boolean (get "useProxy" o) /\
  absent_or is_boolean (get "noAds" o) /\
  number_within 100 3840 (get "width" o) /\
  number_within 100 2160 (get "height" o) /\
  number_within 10 200 (get "zoom" o) /\
  absent_or is_format (get "format" o) /\
  absent_or (number_within 0 100) (get "quality" o) /\
  absent_or (number_within 0 10000) (get "delay" o) /\
  absent_or is_string (get "css" o).

(** ** Sample requests and collaborators *)

Definition sample_URL_ok (s : string) : bool :=
  String.prefix "http://" s || String.prefix "https://" s.

Definition png_bytes : list byte := [x89; x50; x4e; x47].
Definition pdf_bytes : list byte := [x25; x50; x44; x46].

Definition world_resolves : World :=
  fun _ c =>
    match c with
    | page_screenshot _ => Resolved png_bytes
    | page_pdf _ => Resolved pdf_bytes
    | _ => Resolved []
    end.

Definition world_goto_rejects : World :=
  fun trace c =>
    match c with
    | page_goto _ _ => Rejected
    | _ => world_resolves trace c
    end.

Definition example_body : list (string * JSON) :=
  [("url", JStr "https://example.com"); ("width", JNum 1280);
   ("height", JNum 720); ("zoom", JNum 100); ("format", JStr "png");
   ("fullSize", JBool false); ("noAds", JBool false); ("delay", JNum 0)].

Definition fractional_body : list (string * JSON) :=
  [("url", JStr "https://example.com"); ("width", JNum (301 # 2));
   ("height", JNum 720); ("zoom", JNum 100)].

Definition narrow_body : list (string * JSON) :=
  [("url", JStr "https://example.com"); ("width", JNum 50);
   ("height", JNum 720); ("zoom", JNum 100)].

Definition example_validated : Validated :=
  mkValidated "https://example.com" false false false 1280 720 100 png 80 0 None.

Definition ads_body : list (string * JSON) :=
  [("url", JStr "https://example.com"); ("width", JNum 1280);
   ("height", JNum 720); ("zoom", JNum 100); ("noAds", JBool true)].

Definition ads_validated : Validated :=
  mkValidated "https://example.com" false false true 1280 720 100 png 80 0 None.

Definition jpeg_body : list (string * JSON) :=
  [("url", JStr "https://example.com"); ("width", JNum 1280);
   ("height", JNum 720); ("zoom", JNum 150); ("format", JStr "jpeg");
   ("quality", JNum 55); ("fullSize", JBool true)].

Definition jpeg_validated : Validated :=
  mkValidated "https://example.com" true false false 1280 720 150 jpeg 55 0 None.



Definition proxy_body : list (string * JSON) :=
  ("useProxy", JBool true) :: example_body.

Definition empty_css_body : list (string * JSON) :=
  ("css", JStr "") :: example_body.

Definition empty_css_validated : Validated :=
  mkValidated "https://example.com" false false false 1280 720 100 png 80 0
              (Some ""%string).

(** ** Vocabulary of the further properties *)

(** The keys of [screenshotSchema], in the order of the source. *)
Definition schema_keys : list string :=
  ["url"; "fullSize"; "useProxy"; "noAds"; "width"; "height"; "zoom";
   "format"; "quality"; "delay"; "css"].

(** The keys without [.default(...)] or [.optional()]. *)
Definition required_keys : list string := ["url"; "width"; "height"; "zoom"].

(** The method a call of the handler invokes. *)
Definition method (c : Call) : string :=
  match c with
  | puppeteer_launch _ => "puppeteer.launch"
  | browser_newPage => "browser.newPage"
  | page_setViewport _ => "page.setViewport"
  | page_setRequestInterception _ => "page.setRequestInterception"
  | page_on _ _ => "page.on"
  | page_goto _ _ => "page.goto"
  | page_evaluate_appendStyle _ => "page.evaluate"
  | setTimeout _ => "setTimeout"
  | page_pdf _ => "page.pdf"
  | page_screenshot _ => "page.screenshot"
  | browser_close => "browser.close"
  end.

(** [q] is a double: a positive number in the normal range with a
    significand of 53 bits. *)
Definition is_double (q : Q) : Prop :=
  exists e m : Z,
    (-1022 <= e < 1023)%Z /\
    (2 ^ e <= q /\ q < 2 ^ (e + 1))%Q /\
    (q == inject_Z m * 2 ^ (e - 52))%Q.

(** The call with which the listener carries out its decision. *)
Definition settles (decision : Interception) : RequestCall :=
  match decision with
  | abort => request_abort
  | continue => request_continue
  end.

Definition smallest_zoom_body : list (string * JSON) :=
  [("url", JStr "https://example.com"); ("width", JNum 100);
   ("height", JNum 100); ("zoom", JNum 10)].

Definition smallest_zoom_validated : Validated :=
  mkValidated "https://example.com" false false false 100 100 10 png 80 0 None.

Definition world_launch_rejects : World :=
  fun trace c =>
    match c with
    | puppeteer_launch _ => Rejected
    | _ => world_resolves trace c
    end.

Definition delayed_body : list (string * JSON) :=
  [("url", JStr "https://example.com"); ("width", JNum 1280);
   ("height", JNum 720); ("zoom", JNum 100); ("delay", JNum 250)].

Definition delayed_validated : Validated :=
  mkValidated "https://example.com" false false false 1280 720 100 png 80 250
              None.

Definition minimal_body : list (string * JSON) :=
  [("url", JStr "https://example.com"); ("width", JNum 1280);
   ("height", JNum 720); ("zoom", JNum 100)].

Definition extra_key_body : list (string * JSON) :=
  ("callback", JStr "https://example.org/hook") :: example_body.

Definition null_css_body : list (string * JSON) :=
  ("css", JNull) :: example_body.

Definition no_zoom_body : list (string * JSON) :=
  [("url", JStr "https://example.com"); ("width", JNum 1280);
   ("height", JNum 720)].

Definition quality_body : list (string * JSON) :=
  ("quality", JNum 10) :: example_body.

Definition pdf_body : list (string * JSON) :=
  [("url", JStr "https://example.com"); ("width", JNum 1280);
   ("height", JNum 720); ("zoom", JNum 100); ("format", JStr "pdf")].

Definition pdf_fullSize_body : list (string * JSON) :=
  ("fullSize", JBool true) :: pdf_body.

(** ** Reading base64 back

    The decoder of RFC 4648, section 4, as a client of the endpoint applies
    it to the payload of the data URI.  It is written from the table of the
    RFC, not from [Base64.encode]: it says what the base64 encoding of a
    sequence of bytes is. *)

(** Table 1 of RFC 4648: the value of a character of the alphabet, by its
    ASCII code. *)
Definition base64_value (c : ascii) : option N :=
  let n := N_of_ascii c in
  if (65 <=? n)%N && (n <=? 90)%N then Some (n - 65)%N        (* A-Z: 0-25 *)
  else if (97 <=? n)%N && (n <=? 122)%N then Some (n - 71)%N  (* a-z: 26-51 *)
  else if (48 <=? n)%N && (n <=? 57)%N then Some (n + 4)%N    (* 0-9: 52-61 *)
  else if (n =? 43)%N then Some 62%N                          (* + *)
  else if (n =? 47)%N then Some 63%N                          (* / *)
  else None.

(** The first [n] bytes of a group of 24 bits. *)
Definition group_bytes (g : N) (n : nat) : option (list byte) :=
  match Byte.of_N (g / 65536), Byte.of_N ((g / 256) mod 256),
        Byte.of_N (g mod 256) with
  | Some a, Some b, Some c => Some (firstn n [a; b; c])
  | _, _, _ => None
  end.

Definition is_pad (c : ascii) : bool := Ascii.eqb c "="%char.

Definition is_empty (s : string) : bool :=
  match s with
  | EmptyString => true
  | String _ _ => false
  end.

(** Four characters give three bytes.  Padding is accepted in the last
    group only, and there the bits that carry no data must be zero
    (section 3.5 of the RFC), so that a sequence of bytes has one
    encoding. *)
Fixpoint base64_decode (s : string) : option (list byte) :=
  match s with
  | EmptyString => Some []
  | String c0 (String c1 (String c2 (String c3 rest))) =>
      match base64_value c0, base64_value c1,
            base64_value c2, base64_value c3 with
      | Some s0, Some s1, Some s2, Some s3 =>
          match group_bytes (s0 * 262144 + s1 * 4096 + s2 * 64 + s3) 3,
                base64_decode rest with
          | Some group, Some bytes => Some (group ++ bytes)
          | _, _ => None
          end
      | Some s0, Some s1, Some s2, None =>
          if is_pad c3 && is_empty rest && (s2 mod 4 =? 0)%N
          then group_bytes (s0 * 262144 + s1 * 4096 + s2 * 64) 2
          else None
      | Some s0, Some s1, None, None =>
          if is_pad c2 && is_pad c3 && is_empty rest && (s1 mod 16 =? 0)%N
          then group_bytes (s0 * 262144 + s1 * 4096) 1
          else None
      | _, _, _, _ => None
      end
  | _ => None
  end.

(** * Properties *)

(** ** base64 on the test vectors of RFC 4648 *)

Example base64_rfc_vectors :
  Base64.encode [] = "" /\
  Base64.encode [x66] = "Zg==" /\
  Base64.encode [x66; x6f] = "Zm8=" /\
  Base64.encode [x66; x6f; x6f] = "Zm9v" /\
  Base64.encode [x66; x6f; x6f; x62] = "Zm9vYg==" /\
  Base64.encode [x66; x6f; x6f; x62; x61; x72] = "Zm9vYmFy" /\
  Base64.encode [xff; xfe; xfd] = "//79".
Proof. repeat split; reflexivity. Qed.

(** ** Strings and numbers *)

Lemma prefix_app (p s : string) :
  String.prefix p s = true <-> exists t, s = (p ++ t)%string.
Proof.
  revert s; induction p as [|a p IH]; intros s; simpl.
  - destruct s; split; eauto.
  - destruct s as [|b s].
    + split; [discriminate | intros [t H]; discriminate].
    + simpl. destruct (Ascii.ascii_dec a b) as [->|ne].
      * rewrite IH. split; intros [t H]; exists t; [now subst | now inversion H].
      * split; [discriminate | intros [t H]; inversion H; subst; now elim ne].
Qed.

Lemma includes_substring (s sub : string) :
  includes s sub = true <-> exists a b, s = (a ++ sub ++ b)%string.
Proof.
  induction s as [|c s IH]; cbn [includes].
  - destruct (String.prefix sub "") eqn:P.
    + apply prefix_app in P as [t H]. split; [|reflexivity].
      intros _. exists ""%string, t. exact H.
    + split; [discriminate|]. intros (a & b & H).
      destruct a; [|discriminate]. simpl in H.
      assert (String.prefix sub "" = true) by (apply prefix_app; eauto).
      congruence.
  - destruct (String.prefix sub (String c s)) eqn:P.
    + apply prefix_app in P as [t H]. split; [|reflexivity].
      intros _. exists ""%string, t. exact H.
    + rewrite IH. split.
      * intros (a & b & ->). exists (String c a), b. reflexivity.
      * intros (a & b & H). destruct a as [|c' a].
        -- simpl in H.
           assert (String.prefix sub (String c s) = true)
             by (apply prefix_app; eauto).
           congruence.
        -- inversion H; subst. eauto.
Qed.

Lemma Qlt_bool_iff (x y : Q) : Qlt_bool x y = true <-> (x < y)%Q.
Proof. unfold Qlt_bool, Qlt. apply Z.ltb_lt. Qed.

Lemma Qlt_bool_false_iff (x y : Q) : Qlt_bool x y = false <-> (y <= x)%Q.
Proof.
  unfold Qlt_bool, Qle. rewrite Z.ltb_ge. reflexivity.
Qed.

(** ** Rounding to the nearest double *)

Section Rounding.

Local Open Scope Q_scope.

(** [1.1], [1.5], [1], [0.1] and [2] as JavaScript computes them from
    [zoom / 100]; one third, negative numbers, zero, and two ties between
    the integers above [2 ^ 53]. *)
Example binary64_values :
  binary64 (110 / 100) = 2476979795053773 # 2251799813685248 /\
  binary64 (150 / 100) = 3 # 2 /\
  binary64 (100 / 100) = 1 /\
  binary64 (10 / 100) = 3602879701896397 # 36028797018963968 /\
  binary64 (200 / 100) = 2 /\
  binary64 (1 # 3) = 6004799503160661 # 18014398509481984 /\
  binary64 (- (1 # 3)) = -6004799503160661 # 18014398509481984 /\
  binary64 0 = 0 /\
  binary64 (9007199254740993 # 1) = 9007199254740992 # 1 /\
  binary64 (9007199254740995 # 1) = 9007199254740996 # 1.
Proof. vm_compute. repeat (split; [reflexivity|]). reflexivity. Qed.

(** [round_half_even n d] is within a half of [n / d], and even at a tie. *)
Lemma round_half_even_spec (n d : Z) :
  (0 < d)%Z ->
  let m := round_half_even n d in
  ((2 * m - 1) * d <= 2 * n <= (2 * m + 1) * d)%Z /\
  ((2 * n = (2 * m - 1) * d \/ 2 * n = (2 * m + 1) * d)%Z -> Z.even m = true).
Proof.
  intros Hd m. subst m. unfold round_half_even.
  pose proof (Z.div_mod n d ltac:(lia)) as E.
  pose proof (Z.mod_pos_bound n d Hd) as B.
  destruct (Z.compare_spec (2 * (n mod d)) d) as [C|C|C].
  - destruct (Z.even (n / d)) eqn:Ev.
    + split; [nia|]. intros _. exact Ev.
    + split; [nia|]. intros _. rewrite Z.even_add, Ev. reflexivity.
  - split; [nia|]. intros [T|T]; exfalso; nia.
  - split; [nia|]. intros [T|T]; exfalso; nia.
Qed.

(** A power of two as a fraction of two integers. *)
Lemma Qpower2_frac (a b : Z) :
  (0 <= a)%Z -> (0 <= b)%Z -> 2 ^ (a - b) == (2 ^ a)%Z # Z.to_pos (2 ^ b).
Proof.
  intros Ha Hb. rewrite (Qmake_Qdiv (2 ^ a) (Z.to_pos (2 ^ b))).
  rewrite Z2Pos.id by (apply Z.pow_pos_nonneg; lia).
  rewrite !Zpower_Qpower by assumption.
  unfold Z.sub. rewrite Qpower_plus by discriminate.
  rewrite Qpower_opp. reflexivity.
Qed.

(** [exponent] gives the binade of [n / d]. *)
Lemma exponent_binade (n : Z) (d : positive) :
  (0 < n)%Z ->
  2 ^ exponent n (Zpos d) <= n # d /\ n # d < 2 ^ (exponent n (Zpos d) + 1).
Proof.
  intros Hn. unfold exponent.
  pose proof (Z.log2_spec n Hn) as [Ln1 Ln2].
  pose proof (Z.log2_spec (Zpos d) ltac:(lia)) as [Ld1 Ld2].
  pose proof (Z.log2_nonneg n) as Nn. pose proof (Z.log2_nonneg (Zpos d)) as Nd.
  rewrite Z.pow_succ_r in Ln2, Ld2 by assumption.
  set (ln := Z.log2 n) in *. set (ld := Z.log2 (Zpos d)) in *.
  assert (0 < 2 ^ ln)%Z as Pn by (apply Z.pow_pos_nonneg; lia).
  assert (0 < 2 ^ ld)%Z as Pd by (apply Z.pow_pos_nonneg; lia).
  destruct (Z.leb_spec (Zpos d * 2 ^ ln) (n * 2 ^ ld)) as [T|T].
  - split.
    + rewrite Qpower2_frac by assumption. unfold Qle. cbn [Qnum Qden].
      rewrite Z2Pos.id by assumption. lia.
    + replace (ln - ld + 1)%Z with ((ln + 1) - ld)%Z by lia.
      rewrite Qpower2_frac by lia. unfold Qlt. cbn [Qnum Qden].
      rewrite Z2Pos.id by assumption. rewrite Z.pow_add_r by lia.
      change (2 ^ 1)%Z with 2%Z. nia.
  - split.
    + replace (ln - ld - 1)%Z with (ln - (ld + 1))%Z by lia.
      rewrite Qpower2_frac by lia. unfold Qle. cbn [Qnum Qden].
      rewrite Z2Pos.id by (apply Z.pow_pos_nonneg; lia).
      rewrite Z.pow_add_r by lia. change (2 ^ 1)%Z with 2%Z. nia.
    + replace (ln - ld - 1 + 1)%Z with (ln - ld)%Z by lia.
      rewrite Qpower2_frac by assumption. unfold Qlt. cbn [Qnum Qden].
      rewrite Z2Pos.id by assumption. lia.
Qed.

Lemma Qpower2_double (k : Z) : 2 ^ k == 2 * 2 ^ (k - 1).
Proof.
  replace k with (1 + (k - 1))%Z at 1 by lia.
  rewrite Qpower_plus by discriminate. reflexivity.
Qed.

(** For a positive [q] in the normal range, [binary64 q] is the double
    nearest to [q]. *)
Lemma binary64_nearest (q : Q) :
  0 < q ->
  (-1022 <= exponent (Qnum q) (Zpos (Qden q)) < 1023)%Z ->
  nearest_double q (binary64 q).
Proof.
  destruct q as [n d]. unfold Qlt at 1. cbn [Qnum Qden].
  rewrite Z.mul_1_r. change (0 * Zpos d)%Z with 0%Z. intros Hn He.
  set (e := exponent n (Zpos d)) in *.
  set (k := (e - 52)%Z).
  set (m := round_half_even (n * 2 ^ 1074) (Zpos d * 2 ^ (k + 1074))).
  assert (binary64 (n # d) == inject_Z m * 2 ^ k) as Hx.
  { unfold binary64. cbn [Qnum Qden]. rewrite Z.abs_eq by lia.
    destruct (Z.eqb_spec n 0) as [Z0|_]; [lia|].
    fold e. rewrite Z.max_l by lia. fold k. fold m.
    rewrite Qred_correct, Z.sgn_pos, Z.mul_1_l by lia. reflexivity. }
  assert (0 < 2 ^ (k + 1074))%Z as PA by (apply Z.pow_pos_nonneg; lia).
  destruct (round_half_even_spec (n * 2 ^ 1074) (Zpos d * 2 ^ (k + 1074)))
    as [[R1 R2] R3]; [lia|]. fold m in R1, R2, R3.
  assert (2 ^ (k - 1) == (2 ^ (k + 1074))%Z # Z.to_pos (2 ^ 1075)) as Hh.
  { rewrite <- Qpower2_frac by lia. f_equiv. lia. }
  assert (binary64 (n # d) - 2 ^ (k - 1)
          == inject_Z (2 * m - 1) * 2 ^ (k - 1)) as Hlo.
  { rewrite Hx, (Qpower2_double k).
    replace (2 * m - 1)%Z with (2 * m + -1)%Z by lia.
    rewrite inject_Z_plus, inject_Z_mult. change (inject_Z (-1)) with (-1 # 1).
    change (inject_Z 2) with 2.
    generalize (2 ^ (k - 1)) (inject_Z m). intros h M. ring. }
  assert (binary64 (n # d) + 2 ^ (k - 1)
          == inject_Z (2 * m + 1) * 2 ^ (k - 1)) as Hhi.
  { rewrite Hx, (Qpower2_double k), inject_Z_plus, inject_Z_mult.
    change (inject_Z 1) with 1. change (inject_Z 2) with 2.
    generalize (2 ^ (k - 1)) (inject_Z m). intros h M. ring. }
  assert (Zpos (Z.to_pos (2 ^ 1075)) = 2 * 2 ^ 1074)%Z as B by reflexivity.
  exists e, m. split; [exact He|].
  split; [apply exponent_binade; exact Hn|].
  split; [exact Hx|].
  replace (e - 53)%Z with (k - 1)%Z by (subst k; lia).
  rewrite Hlo, Hhi, Hh.
  unfold Qle, Qeq, Qmult, inject_Z. cbn [Qnum Qden].
  rewrite !Pos2Z.inj_mul, B.
  split; [split; nia|].
  intros T. apply R3. nia.
Qed.

(** The binades between 1/10 and 2. *)
Lemma binade_of_range (q : Q) (e : Z) :
  2 ^ e <= q -> q < 2 ^ (e + 1) -> 1 # 10 <= q -> q <= 2 ->
  (-4 <= e <= 1)%Z.
Proof.
  intros B1 B2 L U. split.
  - assert (2 ^ (-4) < 2 ^ (e + 1)) as H.
    { eapply Qlt_trans; [|eapply Qle_lt_trans; [exact L | exact B2]].
      reflexivity. }
    apply Qpower_lt_compat_l_inv in H; [lia | reflexivity].
  - assert (2 ^ e <= 2 ^ 1) as H by (eapply Qle_trans; [exact B1 | exact U]).
    apply Qpower_le_compat_l_inv in H; [lia | reflexivity].
Qed.

(** Between 1/10 and 2 there is a nearest double, and [binary64] is it. *)
Lemma binary64_nearest_in_range (q : Q) :
  1 # 10 <= q -> q <= 2 -> nearest_double q (binary64 q).
Proof.
  intros L U.
  assert (0 < q) as P by (eapply Qlt_le_trans; [|exact L]; reflexivity).
  apply binary64_nearest; [exact P|].
  destruct q as [n d]. cbn [Qnum Qden].
  assert (0 < n)%Z as Hn by (unfold Qlt in P; cbn in P; lia).
  destruct (exponent_binade n d Hn) as [B1 B2].
  pose proof (binade_of_range _ _ B1 B2 L U). lia.
Qed.

(** A double nearest to a number between 1/10 and 2 lies there too. *)
Lemma nearest_double_in_range (q x : Q) :
  nearest_double q x -> 1 # 10 <= q -> q <= 2 -> 1 # 10 <= x /\ x <= 2.
Proof.
  intros (e & m & _ & [B1 B2] & Hx & [E1 E2] & _) L U.
  pose proof (binade_of_range _ _ B1 B2 L U) as R.
  assert (x - 2 ^ (e - 53) <= 2) as U' by (eapply Qle_trans; eassumption).
  assert (1 # 10 <= x + 2 ^ (e - 53)) as L' by (eapply Qle_trans; eassumption).
  assert (2 ^ e <= x + 2 ^ (e - 53)) as L'' by (eapply Qle_trans; eassumption).
  rewrite Hx in U', L', L'' |- *. clear - R U' L' L''.
  assert (e = -4 \/ e = -3 \/ e = -2 \/ e = -1 \/ e = 0 \/ e = 1)%Z
    as [->|[->|[->|[->|[->| ->]]]]] by lia.
  all: cbn [Z.sub Z.add Z.opp Z.pos_sub Pos.succ Pos.pred_double Pos.add
            Pos.add_carry Z.succ_double Z.pred_double Z.double] in *.
  all: repeat match goal with
         | H : context [Qpower 2 ?z] |- _ =>
             let v := eval vm_compute in (Qpower 2 z) in
             change (Qpower 2 z) with v in H
         | |- context [Qpower 2 ?z] =>
             let v := eval vm_compute in (Qpower 2 z) in
             change (Qpower 2 z) with v
         end.
  all: unfold Qminus in *; unfold Qle, Qplus, Qopp, Qmult, inject_Z in *;
    cbn [Qnum Qden] in *; lia.
Qed.


Lemma Qpower2_pos (k : Z) : 0 < 2 ^ k.
Proof. apply Qpower_0_lt. reflexivity. Qed.

(** A number lies in one binade. *)
Lemma binade_unique (q : Q) (e1 e2 : Z) :
  2 ^ e1 <= q -> q < 2 ^ (e1 + 1) -> 2 ^ e2 <= q -> q < 2 ^ (e2 + 1) ->
  e1 = e2.
Proof.
  intros A1 A2 B1 B2.
  assert (2 ^ e1 < 2 ^ (e2 + 1)) as H1 by (eapply Qle_lt_trans; eassumption).
  assert (2 ^ e2 < 2 ^ (e1 + 1)) as H2 by (eapply Qle_lt_trans; eassumption).
  apply Qpower_lt_compat_l_inv in H1, H2; try reflexivity. lia.
Qed.

(** The two ends of the interval that rounds to [m * 2 ^ k]. *)
Lemma half_below (m k : Z) :
  inject_Z m * 2 ^ k - 2 ^ (k - 1) == inject_Z (2 * m - 1) * 2 ^ (k - 1).
Proof.
  rewrite (Qpower2_double k).
  replace (2 * m - 1)%Z with (2 * m + -1)%Z by lia.
  rewrite inject_Z_plus, inject_Z_mult. change (inject_Z (-1)) with (-1 # 1).
  change (inject_Z 2) with 2.
  generalize (2 ^ (k - 1)) (inject_Z m). intros h M. ring.
Qed.

Lemma half_above (m k : Z) :
  inject_Z m * 2 ^ k + 2 ^ (k - 1) == inject_Z (2 * m + 1) * 2 ^ (k - 1).
Proof.
  rewrite (Qpower2_double k), inject_Z_plus, inject_Z_mult.
  change (inject_Z 1) with 1. change (inject_Z 2) with 2.
  generalize (2 ^ (k - 1)) (inject_Z m). intros h M. ring.
Qed.

Lemma inject_Z_mult_le (a b : Z) (h : Q) :
  0 < h -> inject_Z a * h <= inject_Z b * h -> (a <= b)%Z.
Proof.
  intros P H. apply Qmult_le_r in H; [|exact P].
  now rewrite <- Zle_Qle in H.
Qed.

(** [nearest_double] names one number: a tie has one even neighbour. *)
Lemma nearest_double_unique (q x y : Q) :
  nearest_double q x -> nearest_double q y -> x == y.
Proof.
  intros (e & m & _ & [A1 A2] & Hx & [X1 X2] & TX)
         (e' & m' & _ & [B1 B2] & Hy & [Y1 Y2] & TY).
  assert (e' = e) as -> by (eapply binade_unique; eassumption).
  replace (e - 53)%Z with (e - 52 - 1)%Z in * by lia.
  set (k := (e - 52)%Z) in *.
  pose proof (Qpower2_pos (k - 1)) as P.
  rewrite Hx in X1, X2, TX |- *. rewrite Hy in Y1, Y2, TY |- *.
  rewrite half_below in X1, Y1, TX, TY.
  rewrite half_above in X2, Y2, TX, TY.
  assert (2 * m - 1 <= 2 * m' + 1)%Z as L1.
  { apply (inject_Z_mult_le _ _ _ P). eapply Qle_trans; eassumption. }
  assert (2 * m' - 1 <= 2 * m + 1)%Z as L2.
  { apply (inject_Z_mult_le _ _ _ P). eapply Qle_trans; eassumption. }
  assert (m = m' \/ m = m' + 1 \/ m' = m + 1)%Z as [E|[E|E]] by lia;
    rewrite E in *; clear E.
  - reflexivity.
  - exfalso.
    replace (2 * (m' + 1) - 1)%Z with (2 * m' + 1)%Z in * by lia.
    assert (q == inject_Z (2 * m' + 1) * 2 ^ (k - 1)) as T
      by (apply Qle_antisym; assumption).
    pose proof (TX (or_introl T)) as E1. pose proof (TY (or_intror T)) as E2.
    rewrite Z.even_add, E2 in E1. discriminate.
  - exfalso.
    replace (2 * (m + 1) - 1)%Z with (2 * m + 1)%Z in * by lia.
    assert (q == inject_Z (2 * m + 1) * 2 ^ (k - 1)) as T
      by (apply Qle_antisym; assumption).
    pose proof (TX (or_intror T)) as E1. pose proof (TY (or_introl T)) as E2.
    rewrite Z.even_add, E1 in E2. discriminate.
Qed.

(** A number that is a double is its own rounding. *)
Lemma nearest_double_exact (q : Q) (e m : Z) :
  (-1022 <= e < 1023)%Z -> 2 ^ e <= q -> q < 2 ^ (e + 1) ->
  q == inject_Z m * 2 ^ (e - 52) -> nearest_double q q.
Proof.
  intros He B1 B2 Hq. exists e, m.
  pose proof (Qpower2_pos (e - 53)) as P.
  assert (q - 2 ^ (e - 53) < q) as L.
  { rewrite <- (Qplus_0_r q) at 2. unfold Qminus.
    apply Qplus_lt_r. change 0 with (- 0). now apply Qopp_lt_compat. }
  assert (q < q + 2 ^ (e - 53)) as U.
  { rewrite <- (Qplus_0_r q) at 1. now apply Qplus_lt_r. }
  split; [exact He|]. split; [split; assumption|].
  split; [exact Hq|]. split; [split; apply Qlt_le_weak; assumption|].
  intros [T|T]; exfalso.
  - rewrite <- T in L. exact (Qlt_irrefl _ L).
  - rewrite <- T in U. exact (Qlt_irrefl _ U).
Qed.

(** The quotient [zoom / 100] of a zoom that the schema accepts, and the
    double that the route computes for it. *)
Lemma scale_in_range (z : Q) :
  10 <= z -> z <= 200 -> 1 # 10 <= z / 100 /\ z / 100 <= 2.
Proof.
  intros L U. split.
  - apply Qle_shift_div_l; [reflexivity|].
    eapply Qle_trans; [|exact L]. discriminate.
  - apply Qle_shift_div_r; [reflexivity|].
    eapply Qle_trans; [exact U|]. discriminate.
Qed.

Lemma scale_factor_nearest (z : Q) :
  10 <= z -> z <= 200 ->
  nearest_double (z / 100) (binary64 (z / 100)) /\
  (forall x, nearest_double (z / 100) x -> x == binary64 (z / 100)) /\
  1 # 10 <= binary64 (z / 100) /\ binary64 (z / 100) <= 2.
Proof.
  intros L U. destruct (scale_in_range z L U) as [L' U'].
  pose proof (binary64_nearest_in_range _ L' U') as N.
  split; [exact N|]. split.
  - intros x Hx. exact (nearest_double_unique _ _ _ Hx N).
  - exact (nearest_double_in_range _ _ N L' U').
Qed.

End Rounding.

(** ** zod: when a schema produces a value *)

Lemma ap_inr {A B : Type} (rf : Zod.Result (A -> B)) (ra : Zod.Result A) (b : B) :
  rf <*> ra = inr b <-> exists f a, rf = inr f /\ ra = inr a /\ b = f a.
Proof.
  destruct rf as [i|f], ra as [ia|a]; simpl; split;
    try discriminate; try (intros (f' & a' & H1 & H2 & _); discriminate).
  - intros H; inversion H; eauto.
  - intros (f' & a' & H1 & H2 & ->). inversion H1; inversion H2; reflexivity.
Qed.

Lemma key_inr {A : Type} o k (s : Zod.Schema A) (v : A) :
  Zod.key o k s = inr v <-> s (get k o) = inr v.
Proof.
  unfold Zod.key. destruct (s (get k o)); split; congruence.
Qed.

Lemma number_range_inr (lo hi : Q) (input : option JSON) (q : Q) :
  (Zod.number .> Zod.min lo .> Zod.max hi) input = inr q <->
  input = Some (JNum q) /\ (lo <= q)%Q /\ (q <= hi)%Q.
Proof.
  unfold Zod.max, Zod.min, Zod.refine, Zod.number.
  destruct input as [[| | x | | |]|];
    try (split; [discriminate | intros [H _]; discriminate]).
  destruct (Qlt_bool x lo) eqn:Hlo.
  - split; [discriminate|]. intros (H & Hl & _). inversion H; subst.
    apply Qlt_bool_iff in Hlo. exfalso; exact (Qlt_not_le _ _ Hlo Hl).
  - destruct (Qlt_bool hi x) eqn:Hhi.
    + split; [discriminate|]. intros (H & _ & Hh). inversion H; subst.
      apply Qlt_bool_iff in Hhi. exfalso; exact (Qlt_not_le _ _ Hhi Hh).
    + apply Qlt_bool_false_iff in Hlo, Hhi.
      split.
      * intros H; inversion H; subst; auto.
      * intros (H & _); inversion H; reflexivity.
Qed.

Lemma default_inr {A : Type} (d : A) (s : Zod.Schema A) input (v : A) :
  Zod.default d s input = inr v <->
  (input = None /\ v = d) \/ (input <> None /\ s input = inr v).
Proof.
  destruct input; simpl; split.
  - intros H; right; split; [discriminate | exact H].
  - intros [[H _]|[_ H]]; [discriminate | exact H].
  - intros H; left; inversion H; auto.
  - intros [[_ ->]|[H _]]; [reflexivity | now elim H].
Qed.

Lemma boolean_inr input b :
  Zod.boolean input = inr b <-> input = Some (JBool b).
Proof.
  destruct input as [[]|]; simpl; split; intros H; inversion H; reflexivity.
Qed.

Lemma optional_string_inr input r :
  (Zod.string_ .> Zod.optional) input = inr r <->
  match r with
  | None => input = None
  | Some s => input = Some (JStr s)
  end.
Proof.
  destruct input as [[]|], r; simpl; split; intros H; inversion H; reflexivity.
Qed.

Lemma enum_Format_inr input f :
  Zod.enum_Format input = inr f <-> input = Some (JStr (Format_to_string f)).
Proof.
  destruct input as [[| | | s | |]|]; simpl;
    try (split; intros H; discriminate).
  split.
  - destruct (String.eqb_spec s "png"); [subst; intros H; inversion H; reflexivity|].
    destruct (String.eqb_spec s "jpeg"); [subst; intros H; inversion H; reflexivity|].
    destruct (String.eqb_spec s "pdf"); [subst; intros H; inversion H; reflexivity|].
    discriminate.
  - intros H; inversion H; destruct f; reflexivity.
Qed.

Section Reading.

Variable URL_ok : string -> bool.

Lemma url_inr input s :
  (Zod.string_ .> z_url URL_ok) input = inr s <->
  input = Some (JStr s) /\ URL_ok s = true.
Proof.
  unfold z_url, Zod.refine.
  destruct input as [[| | | x | |]|]; simpl;
    try (split; [discriminate | intros [H _]; discriminate]).
  destruct (URL_ok x) eqn:U; split.
  - intros H; inversion H; subst; auto.
  - intros [H _]; inversion H; reflexivity.
  - discriminate.
  - intros [H U']; inversion H; subst; congruence.
Qed.

Lemma boolean_default_inr d input b :
  (Zod.boolean .> Zod.default d) input = inr b <->
  reads_default JBool d input b.
Proof.
  unfold reads_default. rewrite default_inr, boolean_inr.
  split; (intros [H|H]; [left; exact H | right]).
  - apply H.
  - split; [congruence | exact H].
Qed.

Lemma format_default_inr input f :
  (Zod.enum_Format .> Zod.default png) input = inr f <->
  reads_default (fun f => JStr (Format_to_string f)) png input f.
Proof.
  unfold reads_default. rewrite default_inr, enum_Format_inr.
  split; (intros [H|H]; [left; exact H | right]).
  - apply H.
  - split; [congruence | exact H].
Qed.

Lemma number_default_inr lo hi d input q :
  (Zod.number .> Zod.min lo .> Zod.max hi .> Zod.default d) input = inr q <->
  reads_number_default lo hi d input q.
Proof.
  unfold reads_number_default, reads_number.
  rewrite default_inr, number_range_inr.
  split; (intros [H|H]; [left; exact H | right]).
  - apply H.
  - split; [destruct H; congruence | exact H].
Qed.

Lemma css_inr input r :
  (Zod.string_ .> Zod.optional) input = inr r <-> input = option_map JStr r.
Proof. rewrite optional_string_inr. destruct r; reflexivity. Qed.

(** The schema accepts exactly the bodies it can read a request from. *)
Lemma screenshotSchema_inr o v :
  screenshotSchema URL_ok (JObj o) = inr v <-> reads URL_ok o v.
Proof.
  unfold screenshotSchema, reads. split.
  - intros H.
    repeat (apply ap_inr in H as (? & ? & H & ? & ->)).
    inversion H; subst; clear H. cbn [url fullSize useProxy noAds width height zoom format quality delay css].
    repeat match goal with
           | K : Zod.key _ _ _ = inr _ |- _ => apply key_inr in K
           end.
    repeat match goal with
           | K : _ (get _ _) = inr _ |- _ =>
               first [ apply url_inr in K
                     | apply boolean_default_inr in K
                     | apply number_range_inr in K
                     | apply format_default_inr in K
                     | apply number_default_inr in K
                     | apply css_inr in K ]
           end.
    unfold reads_number. tauto.
  - intros ((Hu & Hok) & Hf & Hp & Hn & Hw & Hh & Hz & Hfm & Hq & Hd & Hc).
    assert (Ku := proj2 (key_inr o "url" _ _) (proj2 (url_inr _ _) (conj Hu Hok))).
    apply boolean_default_inr, (key_inr o "fullSize") in Hf.
    apply boolean_default_inr, (key_inr o "useProxy") in Hp.
    apply boolean_default_inr, (key_inr o "noAds") in Hn.
    apply number_range_inr, (key_inr o "width") in Hw.
    apply number_range_inr, (key_inr o "height") in Hh.
    apply number_range_inr, (key_inr o "zoom") in Hz.
    apply format_default_inr, (key_inr o "format") in Hfm.
    apply number_default_inr, (key_inr o "quality") in Hq.
    apply number_default_inr, (key_inr o "delay") in Hd.
    apply css_inr, (key_inr o "css") in Hc.
    rewrite Ku, Hf, Hp, Hn, Hw, Hh, Hz, Hfm, Hq, Hd, Hc.
    destruct v; reflexivity.
Qed.

End Reading.

Lemma reads_default_boolean x :
  absent_or is_boolean x <-> exists b, reads_default JBool false x b.
Proof.
  unfold absent_or, is_boolean, reads_default. split.
  - intros [->|[b ->]]; eauto.
  - intros [b [[-> _]| ->]]; eauto.
Qed.

Lemma reads_default_format x :
  absent_or is_format x <->
  exists f, reads_default (fun f => JStr (Format_to_string f)) png x f.
Proof.
  unfold absent_or, is_format, reads_default. split.
  - intros [->|[->|[->| ->]]];
      [exists png | exists png | exists jpeg | exists pdf]; auto.
  - intros [f [[-> _]| ->]]; [auto | destruct f; auto].
Qed.

Lemma reads_number_within lo hi x :
  number_within lo hi x <-> exists q, reads_number lo hi x q.
Proof. reflexivity. Qed.

Lemma reads_number_default_within lo hi d x :
  absent_or (number_within lo hi) x <->
  exists q, reads_number_default lo hi d x q.
Proof.
  unfold absent_or, number_within, reads_number_default, reads_number. split.
  - intros [->|[q H]]; eauto.
  - intros [q [[-> _]|H]]; eauto.
Qed.

Lemma reads_css x :
  absent_or is_string x <-> exists r, x = option_map JStr r.
Proof.
  unfold absent_or, is_string. split.
  - intros [->|[s ->]]; [exists None | exists (Some s)]; reflexivity.
  - intros [[s|] ->]; cbn; eauto.
Qed.

Lemma same_run_refl r : same_run r r.
Proof. destruct r; reflexivity. Qed.

Lemma ap_issues {A B : Type} (rf : Zod.Result (A -> B)) (ra : Zod.Result A) :
  issues_of (rf <*> ra) = issues_of rf ++ issues_of ra.
Proof.
  destruct rf, ra; cbn; try reflexivity. now rewrite app_nil_r.
Qed.

Lemma ap_is_ok {A B : Type} (rf : Zod.Result (A -> B)) (ra : Zod.Result A) :
  is_ok (rf <*> ra) = is_ok rf && is_ok ra.
Proof. destruct rf, ra; reflexivity. Qed.

Lemma same_run_intro (r1 r2 : Zod.Result Validated) :
  issues_of r1 = issues_of r2 ->
  is_ok r1 = is_ok r2 ->
  (forall v1 v2, r1 = inr v1 -> r2 = inr v2 -> capture v1 = capture v2) ->
  same_run r1 r2.
Proof.
  destruct r1, r2; cbn; intros I O C; try discriminate; auto.
Qed.

(** Two object parses that differ in the value read for one key only. *)
Ltac same_keys :=
  apply same_run_intro;
  [ rewrite !ap_issues; reflexivity
  | rewrite !ap_is_ok; reflexivity
  | let v1 := fresh "v" in
    let v2 := fresh "v" in
    let H1 := fresh "H" in
    let H2 := fresh "H" in
    intros v1 v2 H1 H2;
    repeat (apply ap_inr in H1 as (? & ? & H1 & ? & ->));
    repeat (apply ap_inr in H2 as (? & ? & H2 & ? & ->));
    repeat match goal with
           | K : inr _ = inr _ |- _ => inversion K; subst; clear K
           | K : ?t = inr _, K' : ?t = inr _ |- _ =>
               rewrite K in K'; inversion K'; subst; clear K'
           end;
    exact eq_refl ].

(** ** The route runs its script *)

Lemma implements_ret {A : Type} (a : A) : implements (ret a) [].
Proof. intros w trace; reflexivity. Qed.

Lemma implements_call (c : Call) : is_timer c = false -> implements (call c) [c].
Proof.
  intros T w trace. unfold call. cbn [attempt].
  replace (outcome w trace c) with (w trace c) by (destruct c; try reflexivity; discriminate).
  destruct (w trace c); reflexivity.
Qed.

Lemma implements_sleep (ms : Q) : implements (sleep ms) [setTimeout ms].
Proof. intros w trace; reflexivity. Qed.

Lemma attempt_app w l1 l2 trace :
  attempt w (l1 ++ l2) trace =
  match attempt w l1 trace with
  | (trace', None) => attempt w l2 trace'
  | stopped => stopped
  end.
Proof.
  revert trace; induction l1 as [|c l1 IH]; intros trace; cbn [app attempt].
  - reflexivity.
  - destruct (outcome w trace c); [reflexivity | apply IH].
Qed.

Lemma implements_bind {A B : Type} (m : M A) (k : A -> M B) l1 l2 :
  implements m l1 -> (forall a, implements (k a) l2) ->
  implements (bind m k) (l1 ++ l2).
Proof.
  intros Hm Hk w trace. rewrite attempt_app, <- Hm. unfold bind.
  destruct (m w trace) as [trace' [e|a]]; cbn [fst snd thrown].
  - reflexivity.
  - apply Hk.
Qed.

Lemma implements_when {A : Type} (b : bool) (m : M A) l :
  implements m l -> implements (when b m) (if b then l else []).
Proof.
  intros Hm. unfold when. destruct b.
  - rewrite <- (app_nil_r l). apply implements_bind; [exact Hm | intros; apply implements_ret].
  - apply implements_ret.
Qed.

Lemma capture_implements_script (v : Validated) :
  implements (capture v) (script v).
Proof.
  unfold capture, script.
  apply (implements_bind _ _ [_]); [now apply implements_call | intros _].
  apply (implements_bind _ _ [_]); [now apply implements_call | intros _].
  apply (implements_bind _ _ [_]); [now apply implements_call | intros _].
  apply implements_bind; [| intros _].
  { apply implements_when.
    apply (implements_bind _ _ [_] [_]); [now apply implements_call | intros _].
    now apply implements_call. }
  apply (implements_bind _ _ [_]); [now apply implements_call | intros _].
  apply implements_bind; [| intros _].
  { destruct (css v) as [c|]; [|apply implements_ret].
    apply (implements_when (truthy c) _ [_]). now apply implements_call. }
  apply implements_bind; [| intros _].
  { apply implements_when, implements_sleep. }
  apply (implements_bind _ _ [_]); [| intros screenshotData].
  { unfold capture_call. destruct (format v); now apply implements_call. }
  apply (implements_bind _ _ [_] []); [now apply implements_call | intros _].
  apply implements_ret.
Qed.

Lemma attempt_calls_in w l : forall trace c o,
  In (c, o) (fst (attempt w l trace)) -> In (c, o) trace \/ In c l.
Proof.
  induction l as [|c' l IH]; intros trace c o H; cbn [attempt] in H.
  - left; exact H.
  - destruct (outcome w trace c') eqn:E; cbn [fst] in H.
    + apply in_app_or in H as [H|[H|[]]]; [left; exact H|].
      inversion H; subst. right; left; reflexivity.
    + apply IH in H as [H|H]; [|right; right; exact H].
      apply in_app_or in H as [H|[H|[]]]; [left; exact H|].
      inversion H; subst. right; left; reflexivity.
Qed.

Lemma outcome_cooperative w trace c :
  cooperative w -> outcome w trace c <> Rejected.
Proof. intros C; destruct c; cbn; try apply C; discriminate. Qed.

Lemma attempt_cooperative w l : cooperative w -> forall trace,
  snd (attempt w l trace) = None /\
  map fst (fst (attempt w l trace)) = map fst trace ++ l.
Proof.
  intros C. induction l as [|c l IH]; intros trace; cbn [attempt].
  - split; [reflexivity | now rewrite app_nil_r].
  - destruct (outcome w trace c) eqn:E.
    + now elim (outcome_cooperative w trace c C).
    + destruct (IH (trace ++ [(c, Resolved payload)])) as [H1 H2].
      split; [exact H1|]. rewrite H2, map_app, <- app_assoc. reflexivity.
Qed.

(** An attempt stops at the call that rejects. *)
Lemma attempt_stops w l : forall trace e,
  snd (attempt w l trace) = Some e ->
  exists c done rest,
    e = CallError c /\ l = done ++ c :: rest /\
    exists resolved,
      fst (attempt w l trace) = trace ++ resolved ++ [(c, Rejected)] /\
      map fst resolved = done /\
      forall c' o, In (c', o) resolved -> o <> Rejected.
Proof.
  induction l as [|c' l IH]; intros trace e H; cbn [attempt] in *.
  - discriminate.
  - destruct (outcome w trace c') eqn:E; cbn [fst snd] in *.
    + inversion H; subst. exists c', [], l. repeat split.
      exists []. repeat split. intros ? ? [].
    + apply IH in H as (c & done & rest & -> & -> & resolved & H1 & H2 & H3).
      exists c, (c' :: done), rest. repeat split.
      exists ((c', Resolved payload) :: resolved). rewrite H1, <- app_assoc.
      repeat split.
      * cbn. now rewrite H2.
      * intros c0 o [H|H]; [inversion H; discriminate | eapply H3; eauto].
Qed.

(** An attempt that runs to the end resolved every call. *)
Lemma attempt_completes w l : forall trace,
  snd (attempt w l trace) = None ->
  exists resolved,
    fst (attempt w l trace) = trace ++ resolved /\
    map fst resolved = l /\
    forall c o, In (c, o) resolved -> o <> Rejected.
Proof.
  induction l as [|c' l IH]; intros trace H; cbn [attempt] in *.
  - exists []. rewrite app_nil_r. repeat split. intros ? ? [].
  - destruct (outcome w trace c') eqn:E; cbn [fst snd] in *; [discriminate|].
    apply IH in H as (resolved & H1 & H2 & H3).
    exists ((c', Resolved payload) :: resolved). rewrite H1, <- app_assoc.
    repeat split.
    + cbn. now rewrite H2.
    + intros c0 o [H|H]; [inversion H; discriminate | eapply H3; eauto].
Qed.

Section Runs.

Variable URL_ok : string -> bool.

Lemma POST_valid w data v :
  screenshotSchema URL_ok data = inr v ->
  POST URL_ok w (Request.mk (Some data)) =
  match capture v w [] with
  | (trace, inr res) => mkRun trace [] res
  | (trace, inl error) =>
      mkRun trace [("Screenshot error:", error)] failure_response
  end.
Proof.
  intros H. unfold POST, POST_try, req_json, screenshotSchema_parse, bind.
  cbn [Request.json]. unfold ret at 1. rewrite H. reflexivity.
Qed.

Lemma POST_invalid w data issues :
  screenshotSchema URL_ok data = inl issues ->
  POST URL_ok w (Request.mk (Some data)) =
  mkRun [] [("Screenshot error:", ZodError issues)] failure_response.
Proof.
  intros H. unfold POST, POST_try, req_json, screenshotSchema_parse, bind.
  cbn [Request.json]. unfold ret at 1. rewrite H. reflexivity.
Qed.

Lemma POST_no_json w :
  POST URL_ok w (Request.mk None) =
  mkRun [] [("Screenshot error:", SyntaxError)] failure_response.
Proof. reflexivity. Qed.

(** A valid request runs the script. *)
Lemma POST_attempt w data v :
  screenshotSchema URL_ok data = inr v ->
  let run := POST URL_ok w (Request.mk (Some data)) in
  calls run = fst (attempt w (script v) []) /\
  match snd (attempt w (script v) []) with
  | Some e => console_error run = [("Screenshot error:", e)] /\
              response run = failure_response
  | None => console_error run = [] /\
            exists res, capture v w [] = (calls run, inr res) /\
                        response run = res
  end.
Proof.
  intros H run. subst run. rewrite (POST_valid w data v H).
  pose proof (capture_implements_script v w []) as I.
  destruct (capture v w []) as [trace [e|res]]; cbn [fst snd thrown] in I;
    rewrite <- I; cbn [fst snd calls console_error response]; eauto.
Qed.

End Runs.

Lemma bind_inr {A B : Type} (m : M A) (k : A -> M B) w trace trace' b :
  bind m k w trace = (trace', inr b) ->
  exists trace1 a, m w trace = (trace1, inr a) /\ k a w trace1 = (trace', inr b).
Proof.
  unfold bind. destruct (m w trace) as [trace1 [e|a]]; [discriminate|]. eauto.
Qed.

Lemma call_inr c w trace trace' payload :
  call c w trace = (trace', inr payload) ->
  w trace c = Resolved payload /\ trace' = trace ++ [(c, Resolved payload)].
Proof.
  unfold call. destruct (w trace c); intros H; inversion H; auto.
Qed.

Lemma capture_success v w trace res :
  capture v w [] = (trace, inr res) ->
  exists before c bytes closed,
    trace = before ++ [(c, Resolved bytes); (browser_close, Resolved closed)] /\
    w before c = Resolved bytes /\
    ((exists options, c = page_pdf options) \/
     (exists options, c = page_screenshot options)) /\
    res = success_response
            (match format v with
             | pdf => "data:application/pdf;base64,"
             | png => "data:image/png;base64,"
             | jpeg => "data:image/jpeg;base64,"
             end ++ Base64.encode bytes).
Proof.
  unfold capture. intros H.
  do 6 (apply bind_inr in H as (? & ? & _ & H)).
  apply bind_inr in H as (before & ? & _ & H).
  apply bind_inr in H as (captured & bytes & Hc & H).
  apply bind_inr in H as (? & closed & Hclose & H).
  apply call_inr in Hclose as [_ ->].
  inversion H; subst; clear H.
  assert (exists c, call c w before = (captured, inr bytes) /\
                    ((exists options, c = page_pdf options) \/
                     (exists options, c = page_screenshot options)))
    as (c & Hcall & Hkind)
    by (destruct (format v); eauto 6).
  apply call_inr in Hcall as [Hw ->].
  exists before, c, bytes, closed. rewrite <- app_assoc.
  repeat split; auto.
  destruct (format v); reflexivity.
Qed.

Lemma in_calls_of_script {w cs c} :
  cooperative w -> In c cs -> exists o, In (c, o) (fst (attempt w cs [])).
Proof.
  intros C H. destruct (attempt_cooperative w cs C []) as [_ M].
  cbn [map app] in M. rewrite <- M in H.
  apply in_map_iff in H as ([c' o] & E & H). cbn in E; subst. eauto.
Qed.

Lemma in_if_nil {A : Type} (b : bool) (l : list A) (x : A) :
  In x (if b then l else []) <-> b = true /\ In x l.
Proof. destruct b; cbn; intuition discriminate. Qed.

(** The calls of the script, one by one. *)
Lemma in_script (v : Validated) (c : Call) :
  In c (script v) <->
  c = puppeteer_launch (LaunchOptions.mk true) \/
  c = browser_newPage \/
  c = page_setViewport (Viewport.mk (width v) (height v) (binary64 (zoom v / 100))) \/
  (noAds v = true /\
   (c = page_setRequestInterception true \/
    c = page_on "request" request_listener)) \/
  c = page_goto (url v) (GoToOptions.mk "networkidle0") \/
  (exists s, css v = Some s /\ truthy s = true /\
             c = page_evaluate_appendStyle s) \/
  (Qlt_bool 0 (delay v) = true /\ c = setTimeout (delay v)) \/
  c = capture_call v \/
  c = browser_close.
Proof.
  assert (In c match css v with
               | Some s => if truthy s then [page_evaluate_appendStyle s] else []
               | None => []
               end <->
          exists s, css v = Some s /\ truthy s = true /\
                    c = page_evaluate_appendStyle s) as Hcss.
  { destruct (css v) as [s|].
    - rewrite in_if_nil. cbn [In]. split.
      + intros [T [E|[]]]. eauto.
      + intros (s' & E & T & ->). inversion E; subst. auto.
    - cbn. split; [intros [] | intros (s & E & _); discriminate]. }
  unfold script. cbn [In]. rewrite in_app_iff. cbn [In].
  rewrite in_app_iff, in_app_iff, !in_if_nil, Hcss. cbn [In].
  split; intros H; decompose [or and] H; clear H;
    try contradiction; subst; auto 12.
Qed.

Lemma world_resolves_cooperative : cooperative world_resolves.
Proof. intros trace c. destruct c; discriminate. Qed.

Lemma script_ends_with_close (v : Validated) :
  exists body, script v = body ++ [browser_close] /\ ~ In browser_close body.
Proof.
  exists (removelast (script v)). split.
  - unfold script. cbn [removelast app].
    destruct (noAds v); destruct (css v) as [s|]; [destruct (truthy s)| |destruct (truthy s)|];
      destruct (Qlt_bool 0 (delay v)); reflexivity.
  - unfold script, capture_call.
    destruct (noAds v); destruct (css v) as [s|]; [destruct (truthy s)| |destruct (truthy s)|];
      destruct (Qlt_bool 0 (delay v)); destruct (format v); cbn [removelast app In];
      intros H; repeat (destruct H as [H|H]; [discriminate|]); exact H.
Qed.

(** ** The request listener *)

Lemma request_listener_policy (request : HTTPRequest.t) :
  request_listener request = abort <-> aborted_by_policy request.
Proof.
  unfold request_listener, aborted_by_policy.
  destruct request as [rt u]; cbn [HTTPRequest.resourceType HTTPRequest.url].
  rewrite <- !includes_substring, <- !String.eqb_eq.
  destruct (String.eqb rt "image"), (String.eqb rt "media"),
    (String.eqb rt "script"), (includes u "ads"), (includes u "analytics");
    cbn [orb]; intuition discriminate.
Qed.

Lemma request_listener_continue (request : HTTPRequest.t) :
  ~ aborted_by_policy request -> request_listener request = continue.
Proof.
  intros H. destruct (request_listener request) eqn:E; [|reflexivity].
  now apply request_listener_policy in E.
Qed.

(** ** base64 is lossless *)

Lemma land_shiftl_low (x y n : N) :
  (y < 2 ^ n)%N -> N.land (N.shiftl x n) y = 0%N.
Proof.
  intros H. apply N.bits_inj. intros i. rewrite N.land_spec, N.bits_0.
  destruct (N.lt_ge_cases i n) as [L|G].
  - rewrite N.shiftl_spec_low by exact L. reflexivity.
  - rewrite <- (N.mod_small y (2 ^ n)) by exact H.
    rewrite N.mod_pow2_bits_high by exact G. apply andb_false_r.
Qed.

Lemma lor_shiftl_add (x y n : N) :
  (y < 2 ^ n)%N -> N.lor (N.shiftl x n) y = (x * 2 ^ n + y)%N.
Proof.
  intros H. pose proof (land_shiftl_low x y n H) as L.
  rewrite <- N.lxor_lor, <- N.add_nocarry_lxor, N.shiftl_mul_pow2 by exact L.
  reflexivity.
Qed.

Lemma byte_lt_256 (b : byte) : (Byte.to_N b < 256)%N.
Proof. pose proof (Byte.to_N_bounded b). lia. Qed.

(** The group of three bytes, as a number. *)
Lemma group_of_bytes (a b c : byte) :
  N.lor (N.lor (N.shiftl (Byte.to_N a) 16) (N.shiftl (Byte.to_N b) 8))
        (Byte.to_N c) =
  (Byte.to_N a * 65536 + Byte.to_N b * 256 + Byte.to_N c)%N.
Proof.
  pose proof (byte_lt_256 a). pose proof (byte_lt_256 b).
  pose proof (byte_lt_256 c).
  rewrite (lor_shiftl_add (Byte.to_N a) (N.shiftl (Byte.to_N b) 8) 16).
  - rewrite N.shiftl_mul_pow2.
    replace (Byte.to_N a * 2 ^ 16 + Byte.to_N b * 2 ^ 8)%N
      with (N.shiftl (Byte.to_N a * 256 + Byte.to_N b) 8)
      by (rewrite N.shiftl_mul_pow2; change (2 ^ 8)%N with 256%N;
          change (2 ^ 16)%N with 65536%N; lia).
    rewrite lor_shiftl_add by (change (2 ^ 8)%N with 256%N; lia).
    change (2 ^ 8)%N with 256%N. lia.
  - rewrite N.shiftl_mul_pow2. change (2 ^ 8)%N with 256%N.
    change (2 ^ 16)%N with 65536%N. lia.
Qed.

Lemma group_of_two (a b : byte) :
  N.lor (N.shiftl (Byte.to_N a) 16) (N.shiftl (Byte.to_N b) 8) =
  (Byte.to_N a * 65536 + Byte.to_N b * 256)%N.
Proof.
  pose proof (byte_lt_256 b).
  rewrite lor_shiftl_add, N.shiftl_mul_pow2.
  - change (2 ^ 8)%N with 256%N. change (2 ^ 16)%N with 65536%N. lia.
  - rewrite N.shiftl_mul_pow2. change (2 ^ 8)%N with 256%N.
    change (2 ^ 16)%N with 65536%N. lia.
Qed.

(** A sextet is a digit of the group in base 64. *)
Lemma sextet_digit (i g : N) :
  Base64.sextet i g = Base64.digit ((g / 2 ^ (6 * (3 - i))) mod 64)%N.
Proof.
  unfold Base64.sextet. rewrite N.shiftr_div_pow2.
  change 63%N with (N.ones 6). rewrite N.land_ones. reflexivity.
Qed.

(** The digits are distinct characters, none of them the padding. *)
Lemma digit_value (n : N) :
  (n < 64)%N ->
  exists c, Base64.digit n = String c EmptyString /\
            base64_value c = Some n /\ is_pad c = false.
Proof.
  intros H.
  destruct n as [|p]; [eexists; repeat split|].
  do 6 (destruct p as [p|p|]; try (eexists; repeat split; fail)).
  all: exfalso; lia.
Qed.

(** The four base-64 digits of a group give the group back. *)
Lemma digits_of_group (g : N) :
  (g < 16777216)%N ->
  (((g / 262144) mod 64) * 262144 + ((g / 4096) mod 64) * 4096
   + ((g / 64) mod 64) * 64 + g mod 64 = g)%N.
Proof.
  intros H.
  pose proof (N.div_mod g 64 ltac:(discriminate)) as E1.
  pose proof (N.div_mod (g / 64) 64 ltac:(discriminate)) as E2.
  pose proof (N.div_mod (g / 64 / 64) 64 ltac:(discriminate)) as E3.
  rewrite N.Div0.div_div in E2, E3. rewrite N.Div0.div_div in E3.
  change (64 * 64)%N with 4096%N in *. change (4096 * 64)%N with 262144%N in *.
  assert (g / 262144 < 64)%N as L
    by (apply N.Div0.div_lt_upper_bound; exact H).
  rewrite (N.mod_small (g / 262144) 64) by exact L.
  lia.
Qed.

Lemma group_bytes_of (a b c : byte) (n : nat) :
  group_bytes (Byte.to_N a * 65536 + Byte.to_N b * 256 + Byte.to_N c) n =
  Some (firstn n [a; b; c]).
Proof.
  pose proof (byte_lt_256 a). pose proof (byte_lt_256 b).
  pose proof (byte_lt_256 c). unfold group_bytes.
  set (g := (Byte.to_N a * 65536 + Byte.to_N b * 256 + Byte.to_N c)%N).
  assert (g / 65536 = Byte.to_N a)%N as ->
    by (symmetry; apply (N.div_unique g 65536 _ (Byte.to_N b * 256 + Byte.to_N c));
        subst g; lia).
  assert (g / 256 = Byte.to_N a * 256 + Byte.to_N b)%N as ->
    by (symmetry; apply (N.div_unique g 256 _ (Byte.to_N c)); subst g; lia).
  assert ((Byte.to_N a * 256 + Byte.to_N b) mod 256 = Byte.to_N b)%N as ->
    by (symmetry; apply (N.mod_unique _ 256 (Byte.to_N a)); lia).
  assert (g mod 256 = Byte.to_N c)%N as ->
    by (symmetry; apply (N.mod_unique g 256 (Byte.to_N a * 256 + Byte.to_N b));
        subst g; lia).
  rewrite !Byte.of_to_N. reflexivity.
Qed.

(** The characters [Base64.encode] writes for a group. *)
Lemma sextets_of_group (g : N) :
  (g < 16777216)%N ->
  exists c0 c1 c2 c3 s0 s1 s2 s3,
    Base64.sextet 0 g = String c0 EmptyString /\
    Base64.sextet 1 g = String c1 EmptyString /\
    Base64.sextet 2 g = String c2 EmptyString /\
    Base64.sextet 3 g = String c3 EmptyString /\
    base64_value c0 = Some s0 /\ base64_value c1 = Some s1 /\
    base64_value c2 = Some s2 /\ base64_value c3 = Some s3 /\
    (s0 * 262144 + s1 * 4096 + s2 * 64 + s3 = g)%N /\
    s1 = ((g / 4096) mod 64)%N /\
    s2 = ((g / 64) mod 64)%N /\ s3 = (g mod 64)%N.
Proof.
  intros H. rewrite !sextet_digit.
  change (2 ^ (6 * (3 - 0)))%N with 262144%N.
  change (2 ^ (6 * (3 - 1)))%N with 4096%N.
  change (2 ^ (6 * (3 - 2)))%N with 64%N.
  change (2 ^ (6 * (3 - 3)))%N with 1%N. rewrite N.div_1_r.
  destruct (digit_value ((g / 262144) mod 64)) as (c0 & D0 & V0 & _);
    [apply N.mod_lt; discriminate|].
  destruct (digit_value ((g / 4096) mod 64)) as (c1 & D1 & V1 & _);
    [apply N.mod_lt; discriminate|].
  destruct (digit_value ((g / 64) mod 64)) as (c2 & D2 & V2 & _);
    [apply N.mod_lt; discriminate|].
  destruct (digit_value (g mod 64)) as (c3 & D3 & V3 & _);
    [apply N.mod_lt; discriminate|].
  exists c0, c1, c2, c3. do 4 eexists.
  repeat split; try eassumption. apply digits_of_group. exact H.
Qed.

Lemma list_ind3 {A : Type} (P : list A -> Prop) :
  P [] -> (forall a, P [a]) -> (forall a b, P [a; b]) ->
  (forall a b c l, P l -> P (a :: b :: c :: l)) ->
  forall l, P l.
Proof.
  intros H0 H1 H2 H3 l.
  assert (P l /\ (forall a, P (a :: l)) /\ (forall a b, P (a :: b :: l)))
    as [H _].
  { induction l as [|x l (IH0 & IH1 & IH2)]; auto. }
  exact H.
Qed.

Lemma base64_decode_encode (bs : list byte) :
  base64_decode (Base64.encode bs) = Some bs.
Proof.
  induction bs as [|a|a b|a b c rest IH] using list_ind3.
  - reflexivity.
  - cbn [Base64.encode]. cbv zeta.
    pose proof (byte_lt_256 a) as La.
    assert (N.shiftl (Byte.to_N a) 16
            = Byte.to_N a * 65536 + Byte.to_N x00 * 256 + Byte.to_N x00)%N as G
      by (rewrite N.shiftl_mul_pow2; change (2 ^ 16)%N with 65536%N;
          cbn [Byte.to_N]; lia).
    rewrite G.
    destruct (sextets_of_group
                (Byte.to_N a * 65536 + Byte.to_N x00 * 256 + Byte.to_N x00))
      as (c0 & c1 & c2 & c3 & s0 & s1 & s2 & s3
          & -> & -> & _ & _ & V0 & V1 & _ & _ & S & S1 & S2 & S3);
      [cbn [Byte.to_N]; lia|].
    cbn [append base64_decode]. rewrite V0, V1.
    change (base64_value "=") with (@None N). cbn [is_pad is_empty andb Ascii.eqb Bool.eqb].
    assert (s1 mod 16 = 0)%N as ->.
    { rewrite S1. cbn [Byte.to_N].
      replace (Byte.to_N a * 65536 + 0 * 256 + 0)%N
        with (Byte.to_N a * 16 * 4096)%N by lia.
      rewrite N.div_mul by discriminate.
      change 64%N with (4 * 16)%N. rewrite N.Div0.mul_mod_distr_r.
      apply N.Div0.mod_mul. }
    cbn [N.eqb].
    assert (s0 * 262144 + s1 * 4096
            = Byte.to_N a * 65536 + Byte.to_N x00 * 256 + Byte.to_N x00)%N as ->.
    { assert (s3 = 0)%N as Z3.
      { rewrite S3. cbn [Byte.to_N].
        replace (Byte.to_N a * 65536 + 0 * 256 + 0)%N
          with (Byte.to_N a * 1024 * 64)%N by lia.
        apply N.Div0.mod_mul. }
      assert (s2 = 0)%N as Z2.
      { rewrite S2. cbn [Byte.to_N].
        replace (Byte.to_N a * 65536 + 0 * 256 + 0)%N
          with (Byte.to_N a * 1024 * 64)%N by lia.
        rewrite N.div_mul by discriminate.
        replace (Byte.to_N a * 1024)%N with (Byte.to_N a * 16 * 64)%N by lia.
        apply N.Div0.mod_mul. }
      lia. }
    rewrite group_bytes_of. reflexivity.
  - cbn [Base64.encode]. cbv zeta. rewrite group_of_two.
    pose proof (byte_lt_256 a) as La. pose proof (byte_lt_256 b) as Lb.
    replace (Byte.to_N a * 65536 + Byte.to_N b * 256)%N
      with (Byte.to_N a * 65536 + Byte.to_N b * 256 + Byte.to_N x00)%N
      by (cbn [Byte.to_N]; lia).
    destruct (sextets_of_group
                (Byte.to_N a * 65536 + Byte.to_N b * 256 + Byte.to_N x00))
      as (c0 & c1 & c2 & c3 & s0 & s1 & s2 & s3
          & -> & -> & -> & _ & V0 & V1 & V2 & _ & S & _ & S2 & S3);
      [cbn [Byte.to_N]; lia|].
    cbn [append base64_decode]. rewrite V0, V1, V2.
    change (base64_value "=") with (@None N). cbn [is_pad is_empty andb Ascii.eqb Bool.eqb].
    assert (s2 mod 4 = 0)%N as ->.
    { rewrite S2. cbn [Byte.to_N].
      replace (Byte.to_N a * 65536 + Byte.to_N b * 256 + 0)%N
        with ((Byte.to_N a * 256 + Byte.to_N b) * 4 * 64)%N by lia.
      rewrite N.div_mul by discriminate.
      change 64%N with (16 * 4)%N. rewrite N.Div0.mul_mod_distr_r.
      apply N.Div0.mod_mul. }
    cbn [N.eqb].
    assert (s0 * 262144 + s1 * 4096 + s2 * 64
            = Byte.to_N a * 65536 + Byte.to_N b * 256 + Byte.to_N x00)%N as ->.
    { assert (s3 = 0)%N as Z3; [|lia].
      rewrite S3. cbn [Byte.to_N].
      replace (Byte.to_N a * 65536 + Byte.to_N b * 256 + 0)%N
        with ((Byte.to_N a * 1024 + Byte.to_N b * 4) * 64)%N by lia.
      apply N.Div0.mod_mul. }
    rewrite group_bytes_of. reflexivity.
  - cbn [Base64.encode]. cbv zeta. rewrite group_of_bytes.
    pose proof (byte_lt_256 a) as La. pose proof (byte_lt_256 b) as Lb.
    pose proof (byte_lt_256 c) as Lc.
    destruct (sextets_of_group
                (Byte.to_N a * 65536 + Byte.to_N b * 256 + Byte.to_N c))
      as (c0 & c1 & c2 & c3 & s0 & s1 & s2 & s3
          & -> & -> & -> & -> & V0 & V1 & V2 & V3 & S & _);
      [lia|].
    cbn [append base64_decode]. rewrite V0, V1, V2, V3, S, group_bytes_of, IH.
    reflexivity.
Qed.

Lemma encode_injective (bs1 bs2 : list byte) :
  Base64.encode bs1 = Base64.encode bs2 -> bs1 = bs2.
Proof.
  intros H. apply (f_equal base64_decode) in H.
  rewrite !base64_decode_encode in H. now inversion H.
Qed.

(** ** The encoding is the one string that decodes to the bytes *)

(** A character with a value is the digit of that value. *)
Lemma value_digit (c : ascii) (n : N) :
  base64_value c = Some n ->
  (n < 64)%N /\ Base64.digit n = String c EmptyString /\ is_pad c = false.
Proof.
  destruct c as [[] [] [] [] [] [] [] []]; vm_compute; intros H;
    try discriminate H; inversion H; subst; auto.
Qed.

Lemma is_pad_eq (c : ascii) : is_pad c = true -> c = "="%char.
Proof. apply Ascii.eqb_eq. Qed.

Lemma is_empty_eq (s : string) : is_empty s = true -> s = EmptyString.
Proof. destruct s; [reflexivity | discriminate]. Qed.

(** The three bytes of a group give the group back. *)
Lemma bytes_of_group (g : N) :
  (g / 65536 * 65536 + (g / 256) mod 256 * 256 + g mod 256 = g)%N.
Proof.
  pose proof (N.div_mod g 256 ltac:(discriminate)) as E1.
  pose proof (N.div_mod (g / 256) 256 ltac:(discriminate)) as E2.
  rewrite N.Div0.div_div in E2. change (256 * 256)%N with 65536%N in E2.
  lia.
Qed.

(** The digits of a number written in base 64. *)
Lemma group_digits (s0 s1 s2 s3 : N) :
  (s0 < 64)%N -> (s1 < 64)%N -> (s2 < 64)%N -> (s3 < 64)%N ->
  let g := (s0 * 262144 + s1 * 4096 + s2 * 64 + s3)%N in
  ((g / 262144) mod 64 = s0 /\ (g / 4096) mod 64 = s1 /\
   (g / 64) mod 64 = s2 /\ g mod 64 = s3)%N.
Proof.
  intros L0 L1 L2 L3 g.
  assert (g / 262144 = s0)%N as ->
    by (symmetry; apply (N.div_unique g 262144 _ (s1 * 4096 + s2 * 64 + s3));
        subst g; lia).
  assert (g / 4096 = s0 * 64 + s1)%N as ->
    by (symmetry; apply (N.div_unique g 4096 _ (s2 * 64 + s3)); subst g; lia).
  assert (g / 64 = s0 * 4096 + s1 * 64 + s2)%N as ->
    by (symmetry; apply (N.div_unique g 64 _ s3); subst g; lia).
  repeat split.
  - apply N.mod_small. exact L0.
  - symmetry. apply (N.mod_unique _ 64 s0); lia.
  - symmetry. apply (N.mod_unique _ 64 (s0 * 64 + s1)); lia.
  - symmetry. apply (N.mod_unique g 64 (s0 * 4096 + s1 * 64 + s2));
      subst g; lia.
Qed.

Lemma group_bytes_inv (g : N) (n : nat) (l : list byte) :
  group_bytes g n = Some l ->
  exists a b c,
    l = firstn n [a; b; c] /\
    (Byte.to_N a * 65536 + Byte.to_N b * 256 + Byte.to_N c = g)%N /\
    Byte.to_N c = (g mod 256)%N /\ Byte.to_N b = ((g / 256) mod 256)%N.
Proof.
  unfold group_bytes.
  destruct (Byte.of_N (g / 65536)) as [a|] eqn:A; [|discriminate].
  destruct (Byte.of_N ((g / 256) mod 256)) as [b|] eqn:B; [|discriminate].
  destruct (Byte.of_N (g mod 256)) as [c|] eqn:C; [|discriminate].
  intros H. inversion H; subst. exists a, b, c.
  apply Byte.to_of_N in A, B, C. rewrite A, B, C.
  repeat split. apply bytes_of_group.
Qed.

(** The characters of a group, from its digits. *)
Lemma sextets_of_digits (c0 c1 c2 c3 : ascii) (s0 s1 s2 s3 : N) :
  base64_value c0 = Some s0 -> base64_value c1 = Some s1 ->
  base64_value c2 = Some s2 -> base64_value c3 = Some s3 ->
  let g := (s0 * 262144 + s1 * 4096 + s2 * 64 + s3)%N in
  Base64.sextet 0 g = String c0 EmptyString /\
  Base64.sextet 1 g = String c1 EmptyString /\
  Base64.sextet 2 g = String c2 EmptyString /\
  Base64.sextet 3 g = String c3 EmptyString.
Proof.
  intros V0 V1 V2 V3 g.
  apply value_digit in V0 as (L0 & D0 & _), V1 as (L1 & D1 & _),
      V2 as (L2 & D2 & _), V3 as (L3 & D3 & _).
  destruct (group_digits s0 s1 s2 s3 L0 L1 L2 L3) as (E0 & E1 & E2 & E3).
  fold g in E0, E1, E2, E3.
  rewrite !sextet_digit.
  change (2 ^ (6 * (3 - 0)))%N with 262144%N.
  change (2 ^ (6 * (3 - 1)))%N with 4096%N.
  change (2 ^ (6 * (3 - 2)))%N with 64%N.
  change (2 ^ (6 * (3 - 3)))%N with 1%N. rewrite N.div_1_r.
  rewrite E0, E1, E2, E3. auto.
Qed.

(** What decodes to [bs] is [Base64.encode bs]: the decoder accepts one
    string for a sequence of bytes. *)
Lemma base64_decode_canonical (s : string) :
  forall bs, base64_decode s = Some bs -> Base64.encode bs = s.
Proof.
  assert (forall n s, (String.length s <= n)%nat ->
          forall bs, base64_decode s = Some bs -> Base64.encode bs = s) as H;
    [|exact (H _ s (le_n _))].
  clear s. induction n as [|n IH]; intros s Hn bs.
  { destruct s; [|cbn in Hn; lia]. cbn. intros E. now inversion E. }
  destruct s as [|c0 [|c1 [|c2 [|c3 rest]]]]; cbn [base64_decode];
    try discriminate.
  { intros E. now inversion E. }
  destruct (base64_value c0) as [s0|] eqn:V0; [|discriminate].
  destruct (base64_value c1) as [s1|] eqn:V1; [|discriminate].
  assert (base64_value "A" = Some 0%N) as VA by reflexivity.
  destruct (base64_value c2) as [s2|] eqn:V2;
    [destruct (base64_value c3) as [s3|] eqn:V3|
     destruct (base64_value c3) as [s3|] eqn:V3; [discriminate|]].
  - (* a full group *)
    destruct (group_bytes (s0 * 262144 + s1 * 4096 + s2 * 64 + s3) 3)
      as [grp|] eqn:G; [|discriminate].
    destruct (base64_decode rest) as [bytes|] eqn:R; [|discriminate].
    intros E. inversion E; subst. clear E.
    apply group_bytes_inv in G as (a & b & c & -> & G & _).
    cbn [firstn app Base64.encode]. cbv zeta.
    rewrite group_of_bytes, G.
    destruct (sextets_of_digits c0 c1 c2 c3 s0 s1 s2 s3 V0 V1 V2 V3)
      as (-> & -> & -> & ->).
    cbn [append]. do 4 f_equal.
    apply (IH rest); [cbn in Hn; lia | exact R].
  - (* two bytes and one padding character *)
    destruct (is_pad c3) eqn:P3; [|discriminate].
    destruct (is_empty rest) eqn:Er; [|discriminate].
    destruct (s2 mod 4 =? 0)%N eqn:Z; [|discriminate].
    cbn [andb]. intros G.
    apply is_pad_eq in P3. apply is_empty_eq in Er. apply N.eqb_eq in Z.
    subst c3 rest.
    apply group_bytes_inv in G as (a & b & c & -> & G & Hc & _).
    pose proof (N.div_mod s2 4 ltac:(discriminate)) as D. rewrite Z in D.
    assert (Byte.to_N c = 0)%N as C0.
    { rewrite Hc.
      replace (s0 * 262144 + s1 * 4096 + s2 * 64)%N
        with ((s0 * 1024 + s1 * 16 + s2 / 4) * 256)%N by lia.
      apply N.Div0.mod_mul. }
    cbn [firstn Base64.encode]. cbv zeta.
    rewrite group_of_two.
    replace (Byte.to_N a * 65536 + Byte.to_N b * 256)%N
      with (s0 * 262144 + s1 * 4096 + s2 * 64 + 0)%N by lia.
    destruct (sextets_of_digits c0 c1 c2 "A" s0 s1 s2 0 V0 V1 V2 VA)
      as (-> & -> & -> & _).
    reflexivity.
  - (* one byte and two padding characters *)
    destruct (is_pad c2) eqn:P2; [|discriminate].
    destruct (is_pad c3) eqn:P3; [|discriminate].
    destruct (is_empty rest) eqn:Er; [|discriminate].
    destruct (s1 mod 16 =? 0)%N eqn:Z; [|discriminate].
    cbn [andb]. intros G.
    apply is_pad_eq in P2, P3. apply is_empty_eq in Er. apply N.eqb_eq in Z.
    subst c2 c3 rest.
    apply group_bytes_inv in G as (a & b & c & -> & G & Hc & Hb).
    pose proof (N.div_mod s1 16 ltac:(discriminate)) as D. rewrite Z in D.
    assert (Byte.to_N c = 0)%N as C0.
    { rewrite Hc.
      replace (s0 * 262144 + s1 * 4096)%N
        with ((s0 * 1024 + s1 * 16) * 256)%N by lia.
      apply N.Div0.mod_mul. }
    assert (Byte.to_N b = 0)%N as B0.
    { rewrite Hb.
      replace (s0 * 262144 + s1 * 4096)%N
        with ((s0 * 1024 + s1 * 16) * 256)%N by lia.
      rewrite N.div_mul by discriminate.
      replace (s0 * 1024 + s1 * 16)%N
        with ((s0 * 4 + s1 / 16) * 256)%N by lia.
      apply N.Div0.mod_mul. }
    cbn [firstn Base64.encode]. cbv zeta.
    rewrite N.shiftl_mul_pow2. change (2 ^ 16)%N with 65536%N.
    replace (Byte.to_N a * 65536)%N
      with (s0 * 262144 + s1 * 4096 + 0 * 64 + 0)%N by lia.
    destruct (sextets_of_digits c0 c1 "A" "A" s0 s1 0 0 V0 V1 VA VA)
      as (-> & -> & _).
    reflexivity.
Qed.

(** The base64 encoding of [bs], told without [Base64.encode]. *)
Lemma base64_decode_iff (s : string) (bs : list byte) :
  base64_decode s = Some bs <-> s = Base64.encode bs.
Proof.
  split.
  - intros H. symmetry. now apply base64_decode_canonical.
  - intros ->. apply base64_decode_encode.
Qed.

(** ** The handler *)

(** Only an object passes the schema. *)
Lemma schema_object (URL_ok : string -> bool) (data : JSON) (v : Validated) :
  screenshotSchema URL_ok data = inr v -> exists o, data = JObj o.
Proof. destruct data; try discriminate. eauto. Qed.

Section Handler.

Variable URL_ok : string -> bool.

(** C2.  For every request body that fails validation, the handler returns
    the failure response without acquiring a browser session: validation
    comes first, the run makes no collaborator call at all, and
    [puppeteer.launch] in particular is never reached. *)
Theorem invalid_body_never_launches (w : World) (data : JSON) issues :
  screenshotSchema URL_ok data = inl issues ->
  let run := POST URL_ok w (Request.mk (Some data)) in
  calls run = [] /\
  (forall options o, ~ In (puppeteer_launch options, o) (calls run)) /\
  response run = failure_response.
Proof.
  intros H run. subst run. rewrite (POST_invalid URL_ok w data issues H).
  cbn. auto.
Qed.

(** C3.  For every valid request that completes successfully, the returned
    screenshot string is exactly "data:application/pdf;base64," when format
    is pdf, "data:image/png;base64," when it is png and
    "data:image/jpeg;base64," when it is jpeg, followed by the base64
    encoding of the bytes the capture call resolved with: the payload that
    the decoder of RFC 4648 reads back as those bytes, and the only string
    it reads so.  A valid request does complete successfully when the
    collaborator rejects no call. *)
Theorem success_is_data_uri (w : World) (data : JSON) (v : Validated) :
  screenshotSchema URL_ok data = inr v ->
  let run := POST URL_ok w (Request.mk (Some data)) in
  (forall screenshot,
      response run = success_response screenshot ->
      exists before c bytes closed payload,
        calls run =
          before ++ [(c, Resolved bytes); (browser_close, Resolved closed)] /\
        w before c = Resolved bytes /\
        ((exists options, c = page_pdf options) \/
         (exists options, c = page_screenshot options)) /\
        screenshot =
          (match format v with
           | pdf => "data:application/pdf;base64,"
           | png => "data:image/png;base64,"
           | jpeg => "data:image/jpeg;base64,"
           end ++ payload)%string /\
        base64_decode payload = Some bytes /\
        (forall other, base64_decode other = Some bytes -> other = payload)) /\
  (cooperative w -> exists screenshot, response run = success_response screenshot).
Proof.
  intros H run.
  destruct (POST_attempt URL_ok w data v H) as [Hcalls Hres]. fold run in Hcalls, Hres.
  split.
  - intros screenshot Hs.
    destruct (snd (attempt w (script v) [])).
    + destruct Hres as [_ Hf]. rewrite Hf in Hs. discriminate.
    + destruct Hres as (_ & res & Hcap & Hr).
      apply capture_success in Hcap as (before & c & bytes & closed & Ht & Hw & Hk & ->).
      exists before, c, bytes, closed, (Base64.encode bytes).
      split; [exact Ht|]. split; [exact Hw|]. split; [exact Hk|].
      split; [rewrite Hs in Hr; inversion Hr; reflexivity|].
      split; [apply base64_decode_encode|].
      intros other Ho. symmetry. now apply base64_decode_canonical.
  - intros C. destruct (attempt_cooperative w (script v) C []) as [Hn _].
    rewrite Hn in Hres. destruct Hres as (_ & res & Hcap & Hr).
    apply capture_success in Hcap as (_ & _ & bytes & _ & _ & _ & _ & ->).
    eauto.
Qed.

(** C4.  When noAds is true, the listener installed on the page's "request"
    event aborts an intercepted request if and only if its resource type is
    "image", "media" or "script", or its URL contains "ads", or its URL
    contains "analytics"; every other request is continued.  With a
    collaborator that rejects nothing, interception is enabled and the
    listener is installed. *)
Theorem noAds_listener_decision (w : World) (data : JSON) (v : Validated) :
  screenshotSchema URL_ok data = inr v ->
  noAds v = true ->
  let run := POST URL_ok w (Request.mk (Some data)) in
  (forall event listener o,
      In (page_on event listener, o) (calls run) ->
      event = "request" /\
      forall request,
        (listener request = abort <-> aborted_by_policy request) /\
        (~ aborted_by_policy request -> listener request = continue)) /\
  (cooperative w ->
   exists listener o1 o2,
     In (page_setRequestInterception true, o1) (calls run) /\
     In (page_on "request" listener, o2) (calls run)).
Proof.
  intros H Hads run.
  destruct (POST_attempt URL_ok w data v H) as [Hcalls _]. fold run in Hcalls.
  rewrite Hcalls. split.
  - intros event listener o Hin.
    apply attempt_calls_in in Hin as [[]|Hin].
    apply in_script in Hin.
    assert (page_on event listener = page_on "request" request_listener) as E.
    { unfold capture_call in Hin.
      destruct Hin as [E|[E|[E|[[_ [E|E]]|[E|[(s & _ & _ & E)|[[_ E]|[E|E]]]]]]]];
        try discriminate; auto.
      destruct (format v); discriminate. }
    inversion E; subst. split; [reflexivity|]. intros request.
    split; [apply request_listener_policy | apply request_listener_continue].
  - intros C.
    assert (In (page_setRequestInterception true) (script v)) as I1
      by (apply in_script; auto 12).
    assert (In (page_on "request" request_listener) (script v)) as I2
      by (apply in_script; auto 12).
    destruct (in_calls_of_script C I1) as [o1 H1].
    destruct (in_calls_of_script C I2) as [o2 H2].
    eauto.
Qed.

(** Whatever step fails, the response is the generic failure. *)
Lemma step_fails_response (w : World) (req : Request.t) :
  step_fails URL_ok w req -> response (POST URL_ok w req) = failure_response.
Proof.
  destruct req as [[data|]]; [|reflexivity].
  destruct (screenshotSchema URL_ok data) as [issues|v] eqn:S.
  - intros _. now rewrite (POST_invalid URL_ok w data issues S).
  - intros [H|[(d & i & H & S')|[c Hin]]].
    + discriminate.
    + cbn in H. inversion H; subst. congruence.
    + destruct (POST_attempt URL_ok w data v S) as [Hcalls Hres].
      destruct (snd (attempt w (script v) [])) eqn:E; [apply Hres|].
      apply attempt_completes in E as (resolved & E1 & _ & E3).
      rewrite Hcalls, E1 in Hin. cbn [app] in Hin.
      now elim (E3 _ _ Hin).
Qed.

(** And the generic failure is the answer only when a step failed. *)
Lemma failure_response_step_fails (w : World) (req : Request.t) :
  response (POST URL_ok w req) = failure_response -> step_fails URL_ok w req.
Proof.
  destruct req as [[data|]]; [|left; reflexivity].
  destruct (screenshotSchema URL_ok data) as [issues|v] eqn:S.
  - intros _. right; left. exists data, issues. split; [reflexivity | exact S].
  - intros F. right; right.
    destruct (POST_attempt URL_ok w data v S) as [Hcalls Hres].
    destruct (snd (attempt w (script v) [])) eqn:E.
    + apply attempt_stops in E as (c & _ & _ & _ & _ & resolved & E1 & _).
      exists c. rewrite Hcalls, E1. cbn [app]. apply in_or_app. right.
      left; reflexivity.
    + destruct Hres as (_ & res & Hcap & Hr).
      apply capture_success in Hcap as (? & ? & bytes & ? & _ & _ & _ & Hs).
      rewrite F, Hs in Hr. discriminate.
Qed.

(** C5.  For every request on which a step fails (the body is not JSON,
    validation raises issues, or a collaborator call rejects), the handler
    answers exactly { success: false, error: "Failed to capture
    screenshot" } with status 500; two failing requests get the same
    response whatever failed, so the response does not tell the kinds of
    failure apart. *)
Theorem every_failure_is_generic_500
        (w1 w2 : World) (req1 req2 : Request.t) :
  step_fails URL_ok w1 req1 ->
  step_fails URL_ok w2 req2 ->
  response (POST URL_ok w1 req1) =
    NextResponse.mk 500
      (JObj [("success", JBool false);
             ("error", JStr "Failed to capture screenshot")]) /\
  response (POST URL_ok w1 req1) = response (POST URL_ok w2 req2).
Proof.
  intros F1 F2.
  rewrite (step_fails_response w1 req1 F1), (step_fails_response w2 req2 F2).
  split; reflexivity.
Qed.

(** C7.  For every valid request the capture step is dispatched on format.
    A [page.pdf] call is made only when format is pdf, with page size A4
    and backgrounds printed.  A [page.screenshot] call is made only when
    format is not pdf, in the requested format, with full-page capture
    exactly when fullSize is true, and with the requested quality passed
    through when format is jpeg and no quality otherwise.  With a
    collaborator that rejects nothing the capture call is made. *)
Theorem capture_dispatch (w : World) (data : JSON) (v : Validated) :
  screenshotSchema URL_ok data = inr v ->
  let run := POST URL_ok w (Request.mk (Some data)) in
  (forall options o,
      In (page_pdf options, o) (calls run) ->
      format v = pdf /\ options = PDFOptions.mk "A4" true) /\
  (forall options o,
      In (page_screenshot options, o) (calls run) ->
      format v <> pdf /\
      ScreenshotOptions.fullPage options = fullSize v /\
      ScreenshotOptions.type options = format v /\
      ScreenshotOptions.quality options =
        match format v with
        | jpeg => Some (quality v)
        | _ => None
        end) /\
  (cooperative w ->
   match format v with
   | pdf => exists o, In (page_pdf (PDFOptions.mk "A4" true), o) (calls run)
   | _ => exists options o, In (page_screenshot options, o) (calls run)
   end).
Proof.
  intros H run.
  destruct (POST_attempt URL_ok w data v H) as [Hcalls _]. fold run in Hcalls.
  rewrite Hcalls. repeat split.
  1-6: match goal with
       | Hin : In _ (fst (attempt _ _ _)) |- _ =>
           apply attempt_calls_in in Hin as [[]|Hin];
           apply in_script in Hin; unfold capture_call in Hin;
           destruct Hin as [E|[E|[E|[[_ [E|E]]|[E|[(s & _ & _ & E)|[[_ E]|[E|E]]]]]]]];
           try discriminate;
           destruct (format v); inversion E; subst; try reflexivity; discriminate
       end.
  intros C.
  assert (In (capture_call v) (script v)) as I by (apply in_script; auto 12).
  destruct (in_calls_of_script C I) as [o Ho]. unfold capture_call in Ho.
  destruct (format v); eauto.
Qed.


Lemma POST_same_run (w : World) (data1 data2 : JSON) :
  same_run (screenshotSchema URL_ok data1) (screenshotSchema URL_ok data2) ->
  POST URL_ok w (Request.mk (Some data1)) =
  POST URL_ok w (Request.mk (Some data2)).
Proof.
  unfold same_run.
  destruct (screenshotSchema URL_ok data1) as [issues1|v1] eqn:S1,
           (screenshotSchema URL_ok data2) as [issues2|v2] eqn:S2;
    try contradiction; intros E.
  - rewrite (POST_invalid URL_ok w _ _ S1), (POST_invalid URL_ok w _ _ S2), E.
    reflexivity.
  - rewrite (POST_valid URL_ok w _ _ S1), (POST_valid URL_ok w _ _ S2), E.
    reflexivity.
Qed.

(** C9.  useProxy is accepted but inert: two request bodies that agree on
    every key but useProxy, where useProxy is a boolean or absent in each,
    lead to the same run: the same calls with the same outcomes, the same
    log and the same response. *)
Theorem useProxy_is_inert (w : World) (o1 o2 : list (string * JSON)) :
  agree_except "useProxy" o1 o2 ->
  absent_or is_boolean (get "useProxy" o1) ->
  absent_or is_boolean (get "useProxy" o2) ->
  POST URL_ok w (Request.mk (Some (JObj o1))) =
  POST URL_ok w (Request.mk (Some (JObj o2))).
Proof.
  intros A B1 B2. apply POST_same_run.
  unfold screenshotSchema, Zod.key.
  rewrite (A "url"), (A "fullSize"), (A "noAds"), (A "width"), (A "height"),
    (A "zoom"), (A "format"), (A "quality"), (A "delay"), (A "css")
    by discriminate.
  destruct B1 as [->|[b1 ->]], B2 as [->|[b2 ->]];
    cbn [Zod.default Zod.boolean]; same_keys.
Qed.

(** C10.  The style injection runs only when css is present and not the
    empty string.  A valid request whose css is the empty string makes no
    [page.evaluate] call, and its run is the run of the same request
    without the css key. *)
Theorem empty_css_injects_nothing
        (w : World) (o1 : list (string * JSON)) (v : Validated) :
  screenshotSchema URL_ok (JObj o1) = inr v ->
  let run := POST URL_ok w (Request.mk (Some (JObj o1))) in
  (forall s o,
      In (page_evaluate_appendStyle s, o) (calls run) ->
      css v = Some s /\ s <> ""%string) /\
  (css v = Some ""%string ->
   forall o2,
     agree_except "css" o1 o2 ->
     get "css" o2 = None ->
     run = POST URL_ok w (Request.mk (Some (JObj o2)))).
Proof.
  intros H run. split.
  - destruct (POST_attempt URL_ok w _ v H) as [Hcalls _]. fold run in Hcalls.
    rewrite Hcalls. intros s o Hin.
    apply attempt_calls_in in Hin as [[]|Hin].
    apply in_script in Hin. unfold capture_call in Hin.
    destruct Hin as [E|[E|[E|[[_ [E|E]]|[E|[(s' & Hs & T & E)|[[_ E]|[E|E]]]]]]]];
      try discriminate.
    + inversion E; subst. split; [exact Hs|]. intros ->. discriminate.
    + destruct (format v); discriminate.
  - intros Hcss o2 A Habsent. subst run. apply POST_same_run.
    apply screenshotSchema_inr in H. destruct H as (_ & _ & _ & _ & _ & _ & _ & _ & _ & _ & Hc).
    rewrite Hcss in Hc. cbn [option_map] in Hc.
    unfold screenshotSchema, Zod.key.
    rewrite (A "url"), (A "fullSize"), (A "useProxy"), (A "noAds"),
      (A "width"), (A "height"), (A "zoom"), (A "format"), (A "quality"),
      (A "delay") by discriminate.
    rewrite Hc, Habsent. cbn [Zod.optional Zod.string_].
    same_keys.
Qed.

(** What is right in C1: a run that succeeds closes the browser, once,
    as its last call. *)
Lemma success_closes_once (w : World) (data : JSON) (v : Validated) s :
  screenshotSchema URL_ok data = inr v ->
  let run := POST URL_ok w (Request.mk (Some data)) in
  response run = success_response s ->
  exists before o,
    calls run = before ++ [(browser_close, o)] /\
    forall o', ~ In (browser_close, o') before.
Proof.
  intros H run Hs.
  destruct (POST_attempt URL_ok w data v H) as [Hcalls Hres].
  fold run in Hcalls, Hres.
  destruct (snd (attempt w (script v) [])) eqn:E.
  - destruct Hres as [_ Hf]. rewrite Hf in Hs. discriminate.
  - apply attempt_completes in E as (resolved & E1 & E2 & _).
    cbn [app] in E1. rewrite Hcalls, E1.
    destruct (script_ends_with_close v) as (body & Hb & Hn).
    rewrite Hb in E2.
    destruct (exists_last (l := resolved)) as (before & [c o] & ->).
    { intros ->. destruct body; discriminate. }
    rewrite map_app in E2. apply app_inj_tail in E2 as [E2 E3].
    cbn in E3. subst c. exists before, o. split; [reflexivity|].
    intros o' Hin. apply Hn. rewrite <- E2.
    apply in_map_iff. exists (browser_close, o'). auto.
Qed.

(** What is wrong in C1: when a call before [browser.close()] rejects,
    the run ends without closing the browser. *)
Lemma rejection_skips_close (w : World) (data : JSON) (v : Validated) c :
  screenshotSchema URL_ok data = inr v ->
  let run := POST URL_ok w (Request.mk (Some data)) in
  In (c, Rejected) (calls run) ->
  c <> browser_close ->
  forall o, ~ In (browser_close, o) (calls run).
Proof.
  intros H run Hin Hc o Hclose.
  destruct (POST_attempt URL_ok w data v H) as [Hcalls _]. fold run in Hcalls.
  rewrite Hcalls in Hin, Hclose.
  destruct (snd (attempt w (script v) [])) eqn:E.
  - apply attempt_stops in E as (c' & done & rest & _ & Hs & resolved & E1 & E2 & E3).
    cbn [app] in E1. rewrite E1 in Hin, Hclose.
    assert (c' = c) as ->.
    { apply in_app_or in Hin as [Hin|[Hin|[]]]; [now elim (E3 _ _ Hin) | congruence]. }
    apply in_app_or in Hclose as [Hclose|[Hclose|[]]]; [|congruence].
    assert (In browser_close done) as Hd
      by (rewrite <- E2; apply in_map_iff; exists (browser_close, o); auto).
    destruct (script_ends_with_close v) as (body & Hb & Hn).
    rewrite Hs in Hb. apply Hn.
    destruct (exists_last (l := c :: rest)) as (rest' & x & Hr); [discriminate|].
    rewrite Hr, app_assoc in Hb. apply app_inj_tail in Hb as [<- _].
    apply in_or_app; auto.
  - apply attempt_completes in E as (resolved & E1 & _ & E3).
    cbn [app] in E1. rewrite E1 in Hin. now elim (E3 _ _ Hin).
Qed.

(** C6 (amended).  The numeric fields are numbers, integer or not, checked
    against their ranges only.  The schema accepts a body exactly when url
    is a string the URL parser accepts; fullSize, useProxy and noAds are
    booleans or absent; width, height and zoom are numbers within
    100..3840, 100..2160 and 10..200; format is "png", "jpeg", "pdf" or
    absent; quality and delay are absent or numbers within 0..100 and
    0..10000; css is a string or absent. *)
Theorem schema_accepts_documented_ranges (o : list (string * JSON)) :
  (exists v, screenshotSchema URL_ok (JObj o) = inr v) <->
  documented_request URL_ok o.
Proof.
  unfold documented_request.
  rewrite !reads_default_boolean, reads_default_format,
    !reads_number_within, !reads_number_default_within, reads_css.
  split.
  - intros [v H]. apply screenshotSchema_inr in H.
    destruct H as ((Hu & Hok) & Hf & Hp & Hn & Hw & Hh & Hz & Hfm & Hq & Hd & Hc).
    repeat split; eauto.
  - intros ((s & Hu & Hok) & [fs Hf] & [up Hp] & [na Hn] & [wd Hw] & [ht Hh]
            & [zm Hz] & [fm Hfm] & [ql Hq] & [dl Hd] & [cs Hc]).
    exists (mkValidated s fs up na wd ht zm fm ql dl cs).
    apply screenshotSchema_inr. unfold reads. cbn. tauto.
Qed.

End Handler.

(** C1 (fails on the code).  The claim: whenever a step after the browser
    was acquired fails, the handler still releases the browser session
    before it returns the failure response, exactly once per request.  On
    the example request of the spec, with a collaborator whose [page.goto]
    rejects, the route makes four calls (launch, newPage, setViewport,
    goto), answers the generic failure, and never calls [browser.close()]:
    the session is not released. *)
Theorem goto_rejection_leaks_browser :
  let run := POST sample_URL_ok world_goto_rejects
                  (Request.mk (Some (JObj example_body))) in
  calls run =
    [(puppeteer_launch (LaunchOptions.mk true), Resolved []);
     (browser_newPage, Resolved []);
     (page_setViewport (Viewport.mk 1280 720 (binary64 (100 / 100))), Resolved []);
     (page_goto "https://example.com" (GoToOptions.mk "networkidle0"),
      Rejected)] /\
  (forall o, ~ In (browser_close, o) (calls run)) /\
  response run = failure_response.
Proof.
  cbv zeta.
  assert (calls (POST sample_URL_ok world_goto_rejects
                  (Request.mk (Some (JObj example_body)))) =
    [(puppeteer_launch (LaunchOptions.mk true), Resolved []);
     (browser_newPage, Resolved []);
     (page_setViewport (Viewport.mk 1280 720 (binary64 (100 / 100))), Resolved []);
     (page_goto "https://example.com" (GoToOptions.mk "networkidle0"),
      Rejected)]) as E by reflexivity.
  rewrite E. repeat split.
  intros o H. cbn [In] in H.
  repeat (destruct H as [H|H]; [discriminate|]). exact H.
Qed.

(** C6 (counterexample).  The claim: a non-integer value for width, height,
    zoom, quality or delay is rejected, even inside the documented range.
    The body { url: "https://example.com", width: 150.5, height: 720,
    zoom: 100 } has a width that is no integer and lies within 100..3840;
    the schema accepts it and the route answers with a screenshot. *)
Lemma fractional_width_is_accepted :
  get "width" fractional_body = Some (JNum (301 # 2)) /\
  (forall z : Z, ~ (301 # 2 == inject_Z z)%Q) /\
  (100 <= 301 # 2 <= 3840)%Q /\
  (exists v, screenshotSchema sample_URL_ok (JObj fractional_body) = inr v /\
             width v = 301 # 2) /\
  response (POST sample_URL_ok world_resolves
                 (Request.mk (Some (JObj fractional_body)))) =
    success_response "data:image/png;base64,iVBORw==".
Proof.
  split; [reflexivity|]. split.
  { intros z. unfold Qeq. cbn. lia. }
  split; [split; unfold Qle; cbn; lia|].
  split; [eexists; split; reflexivity | reflexivity].
Qed.


(** ** The properties at sample requests *)

(** The example scenario of the spec. *)
Example example_scenario :
  POST sample_URL_ok world_resolves (Request.mk (Some (JObj example_body))) =
  mkRun
    [(puppeteer_launch (LaunchOptions.mk true), Resolved []);
     (browser_newPage, Resolved []);
     (page_setViewport (Viewport.mk 1280 720 (binary64 (100 / 100))), Resolved []);
     (page_goto "https://example.com" (GoToOptions.mk "networkidle0"),
      Resolved []);
     (page_screenshot (ScreenshotOptions.mk false png None),
      Resolved png_bytes);
     (browser_close, Resolved [])]
    []
    (success_response "data:image/png;base64,iVBORw==").
Proof. reflexivity. Qed.

(** The three kinds of validation failure: a wrong type, a number out of
    its range, a string that is no URL.  zod reports every issue. *)
Example validation_failures :
  screenshotSchema sample_URL_ok
    (JObj [("url", JStr "https://example.com"); ("width", JStr "1280");
           ("height", JNum 720); ("zoom", JNum 100)]) =
    inl [Zod.mkIssue ["width"] Zod.invalid_type] /\
  screenshotSchema sample_URL_ok
    (JObj [("url", JStr "https://example.com"); ("width", JNum 1280);
           ("height", JNum 2161); ("zoom", JNum 100);
           ("delay", JNum (-1))]) =
    inl [Zod.mkIssue ["height"] Zod.too_big;
         Zod.mkIssue ["delay"] Zod.too_small] /\
  screenshotSchema sample_URL_ok
    (JObj [("url", JStr "example"); ("width", JNum 1280);
           ("height", JNum 720); ("zoom", JNum 100)]) =
    inl [Zod.mkIssue ["url"] Zod.invalid_string] /\
  screenshotSchema sample_URL_ok (JArr []) =
    inl [Zod.mkIssue [] Zod.invalid_type].
Proof. repeat split; reflexivity. Qed.

Lemma agree_except_cons (k : string) (x : JSON) (o : list (string * JSON)) :
  agree_except k ((k, x) :: o) o.
Proof.
  intros k' Hk. cbn [get]. apply String.eqb_neq in Hk. now rewrite Hk.
Qed.

Lemma invalid_body_never_launches_witness :
  screenshotSchema sample_URL_ok (JObj narrow_body) =
    inl [Zod.mkIssue ["width"] Zod.too_small] /\
  calls (POST sample_URL_ok world_resolves
              (Request.mk (Some (JObj narrow_body)))) = [] /\
  (forall options o,
      ~ In (puppeteer_launch options, o)
           (calls (POST sample_URL_ok world_resolves
                        (Request.mk (Some (JObj narrow_body)))))) /\
  response (POST sample_URL_ok world_resolves
                 (Request.mk (Some (JObj narrow_body)))) = failure_response.
Proof.
  split; [reflexivity|].
  apply (invalid_body_never_launches sample_URL_ok world_resolves
           (JObj narrow_body) [Zod.mkIssue ["width"] Zod.too_small]).
  reflexivity.
Defined.

Lemma success_is_data_uri_witness :
  screenshotSchema sample_URL_ok (JObj example_body) = inr example_validated /\
  base64_decode "iVBORw==" = Some png_bytes /\
  exists before c bytes closed payload,
    calls (POST sample_URL_ok world_resolves
                (Request.mk (Some (JObj example_body)))) =
      before ++ [(c, Resolved bytes); (browser_close, Resolved closed)] /\
    world_resolves before c = Resolved bytes /\
    ((exists options, c = page_pdf options) \/
     (exists options, c = page_screenshot options)) /\
    "data:image/png;base64,iVBORw=="%string =
      ("data:image/png;base64," ++ payload)%string /\
    base64_decode payload = Some bytes /\
    (forall other, base64_decode other = Some bytes -> other = payload).
Proof.
  split; [reflexivity|]. split; [reflexivity|].
  exact (proj1 (success_is_data_uri sample_URL_ok world_resolves
                  (JObj example_body) example_validated eq_refl)
               "data:image/png;base64,iVBORw=="%string eq_refl).
Defined.

Lemma noAds_listener_decision_witness :
  screenshotSchema sample_URL_ok (JObj ads_body) = inr ads_validated /\
  noAds ads_validated = true /\
  exists listener o1 o2,
    In (page_setRequestInterception true, o1)
       (calls (POST sample_URL_ok world_resolves
                    (Request.mk (Some (JObj ads_body))))) /\
    In (page_on "request" listener, o2)
       (calls (POST sample_URL_ok world_resolves
                    (Request.mk (Some (JObj ads_body))))).
Proof.
  split; [reflexivity|]. split; [reflexivity|].
  exact (proj2 (noAds_listener_decision sample_URL_ok world_resolves
                  (JObj ads_body) ads_validated eq_refl eq_refl)
               world_resolves_cooperative).
Defined.

Lemma every_failure_is_generic_500_witness :
  step_fails sample_URL_ok world_goto_rejects
             (Request.mk (Some (JObj example_body))) /\
  step_fails sample_URL_ok world_resolves
             (Request.mk (Some (JObj narrow_body))) /\
  response (POST sample_URL_ok world_goto_rejects
                 (Request.mk (Some (JObj example_body)))) =
    NextResponse.mk 500
      (JObj [("success", JBool false);
             ("error", JStr "Failed to capture screenshot")]) /\
  response (POST sample_URL_ok world_goto_rejects
                 (Request.mk (Some (JObj example_body)))) =
  response (POST sample_URL_ok world_resolves
                 (Request.mk (Some (JObj narrow_body)))).
Proof.
  assert (step_fails sample_URL_ok world_goto_rejects
                     (Request.mk (Some (JObj example_body)))) as F1.
  { right; right.
    exists (page_goto "https://example.com" (GoToOptions.mk "networkidle0")).
    right; right; right; left; reflexivity. }
  assert (step_fails sample_URL_ok world_resolves
                     (Request.mk (Some (JObj narrow_body)))) as F2.
  { right; left.
    exists (JObj narrow_body), [Zod.mkIssue ["width"] Zod.too_small].
    split; reflexivity. }
  split; [exact F1|]. split; [exact F2|].
  exact (every_failure_is_generic_500 sample_URL_ok _ _ _ _ F1 F2).
Defined.

Lemma capture_dispatch_witness :
  screenshotSchema sample_URL_ok (JObj jpeg_body) = inr jpeg_validated /\
  exists options o,
    In (page_screenshot options, o)
       (calls (POST sample_URL_ok world_resolves
                    (Request.mk (Some (JObj jpeg_body))))) /\
    ScreenshotOptions.fullPage options = true /\
    ScreenshotOptions.type options = jpeg /\
    ScreenshotOptions.quality options = Some 55%Q.
Proof.
  split; [reflexivity|].
  pose proof (capture_dispatch sample_URL_ok world_resolves
                (JObj jpeg_body) jpeg_validated eq_refl) as (_ & Hs & Hc).
  destruct (Hc world_resolves_cooperative) as (options & o & Hin).
  destruct (Hs options o Hin) as (_ & Hf & Ht & Hq).
  exists options, o. repeat split; assumption.
Defined.


Lemma useProxy_is_inert_witness :
  get "useProxy" proxy_body = Some (JBool true) /\
  get "useProxy" example_body = None /\
  POST sample_URL_ok world_resolves (Request.mk (Some (JObj proxy_body))) =
  POST sample_URL_ok world_resolves (Request.mk (Some (JObj example_body))).
Proof.
  split; [reflexivity|]. split; [reflexivity|].
  apply useProxy_is_inert.
  - apply agree_except_cons.
  - right; exists true; reflexivity.
  - left; reflexivity.
Defined.

Lemma empty_css_injects_nothing_witness :
  screenshotSchema sample_URL_ok (JObj empty_css_body) = inr empty_css_validated /\
  css empty_css_validated = Some ""%string /\
  get "css" example_body = None /\
  POST sample_URL_ok world_resolves (Request.mk (Some (JObj empty_css_body))) =
  POST sample_URL_ok world_resolves (Request.mk (Some (JObj example_body))).
Proof.
  split; [reflexivity|]. split; [reflexivity|]. split; [reflexivity|].
  apply (proj2 (empty_css_injects_nothing sample_URL_ok world_resolves
                  empty_css_body empty_css_validated eq_refl)
               eq_refl example_body).
  - apply agree_except_cons.
  - reflexivity.
Defined.

Lemma schema_accepts_documented_ranges_witness :
  exists v, screenshotSchema sample_URL_ok (JObj fractional_body) = inr v.
Proof.
  apply (proj2 (schema_accepts_documented_ranges sample_URL_ok fractional_body)).
  unfold documented_request, absent_or, number_within. cbn [get fractional_body String.eqb Ascii.eqb Bool.eqb].
  repeat split; try (left; reflexivity).
  - exists "https://example.com"%string. split; reflexivity.
  - exists (301 # 2). repeat split; unfold Qle; cbn; lia.
  - exists 720%Q. repeat split; unfold Qle; cbn; lia.
  - exists 100%Q. repeat split; unfold Qle; cbn; lia.
Defined.

(** * Further properties of the route *)

(** ** The shape of a run *)

(** An attempt makes the calls of a prefix of its list; it either resolves
    them all, or stops at its first, and last, rejected call. *)
Lemma attempt_shape w l :
  exists rest,
    l = map fst (fst (attempt w l [])) ++ rest /\
    match snd (attempt w l []) with
    | None =>
        rest = [] /\
        forall c o, In (c, o) (fst (attempt w l [])) -> o <> Rejected
    | Some e =>
        exists resolved c,
          e = CallError c /\
          fst (attempt w l []) = resolved ++ [(c, Rejected)] /\
          forall c' o, In (c', o) resolved -> o <> Rejected
    end.
Proof.
  destruct (snd (attempt w l [])) as [e|] eqn:E.
  - apply attempt_stops in E as (c & done & rest & -> & -> & resolved & E1 & E2 & E3).
    cbn [app] in E1. exists rest. rewrite E1, map_app, E2, <- app_assoc.
    split; [reflexivity|]. exists resolved, c. auto.
  - apply attempt_completes in E as (resolved & E1 & E2 & E3).
    cbn [app] in E1. exists []. rewrite E1, E2, app_nil_r. auto.
Qed.

(** A timer in an attempt has fired. *)
Lemma attempt_timer w l : forall trace ms o,
  In (setTimeout ms, o) (fst (attempt w l trace)) ->
  In (setTimeout ms, o) trace \/ o = Resolved [].
Proof.
  induction l as [|c l IH]; intros trace ms o H; cbn [attempt] in H.
  - left; exact H.
  - destruct (outcome w trace c) eqn:E; cbn [fst] in H.
    + apply in_app_or in H as [H|[H|[]]]; [left; exact H|].
      inversion H; subst. discriminate.
    + apply IH in H as [H|H]; [|right; exact H].
      apply in_app_or in H as [H|[H|[]]]; [left; exact H|].
      inversion H; subst. cbn in E. right. congruence.
Qed.

Lemma script_methods_NoDup (v : Validated) : NoDup (map method (script v)).
Proof.
  unfold script, capture_call.
  destruct (noAds v); destruct (css v) as [s|];
    [destruct (truthy s)| |destruct (truthy s)|];
    destruct (Qlt_bool 0 (delay v)); destruct (format v); cbn [map app method].
  all: repeat (constructor;
               [cbn [In]; intros H;
                repeat (destruct H as [H|H]; [discriminate|]); exact H|]).
  all: constructor.
Qed.

Section Shape.

Variable URL_ok : string -> bool.

(** X1.  A valid request makes the calls of the route in the order of the
    source: launch, newPage, setViewport, then setRequestInterception and
    on("request") when noAds is set, goto, evaluate when css is a non-empty
    string, the timer when delay is positive, the capture, close.  The run
    is a prefix of that list.  Either every call resolved, the whole list
    was run and the response is a success; or the run ends with its first
    rejected call, nothing is attempted after it, and the response is the
    failure. *)
Theorem run_follows_script (w : World) (data : JSON) (v : Validated) :
  screenshotSchema URL_ok data = inr v ->
  let run := POST URL_ok w (Request.mk (Some data)) in
  exists rest,
    script v = map fst (calls run) ++ rest /\
    ((rest = [] /\
      (forall c o, In (c, o) (calls run) -> o <> Rejected) /\
      exists screenshot, response run = success_response screenshot) \/
     (exists resolved c,
         calls run = resolved ++ [(c, Rejected)] /\
         (forall c' o, In (c', o) resolved -> o <> Rejected) /\
         response run = failure_response)).
Proof.
  intros H run.
  destruct (POST_attempt URL_ok w data v H) as [Hcalls Hres].
  fold run in Hcalls, Hres.
  destruct (attempt_shape w (script v)) as (rest & Hs & Hk).
  exists rest. rewrite Hcalls. split; [exact Hs|].
  destruct (snd (attempt w (script v) [])) as [e|].
  - right. destruct Hk as (resolved & c & _ & E & R).
    exists resolved, c. repeat split; [exact E | exact R | apply Hres].
  - left. destruct Hk as [-> R]. repeat split; [exact R|].
    destruct Hres as (_ & res & Hcap & Hr).
    apply capture_success in Hcap as (? & ? & bytes & ? & _ & _ & _ & Hsucc).
    rewrite Hr, Hsucc. eauto.
Qed.

(** X2.  No retries in the body of the handler: among the calls that the
    handler itself makes in the run of a valid request (lines 24-92:
    launch, newPage, setViewport, setRequestInterception, on, goto,
    evaluate, the timer, pdf or screenshot, close) no method is invoked
    twice.  The calls that the installed listener makes on the requests the
    browser intercepts are not calls of the handler and are not in
    [calls]; they are those of [request_listener_calls]. *)
Theorem no_method_twice (w : World) (data : JSON) (v : Validated) :
  screenshotSchema URL_ok data = inr v ->
  NoDup (map method (map fst (calls (POST URL_ok w (Request.mk (Some data)))))).
Proof.
  intros H.
  destruct (POST_attempt URL_ok w data v H) as [Hcalls _]. rewrite Hcalls.
  destruct (attempt_shape w (script v)) as (rest & Hs & _).
  pose proof (script_methods_NoDup v) as N.
  rewrite Hs, map_app in N. exact (NoDup_app_remove_r _ _ N).
Qed.

(** X3.  A valid request launches one browser, headless, as its first
    call; when the launch rejects nothing else is called. *)
Theorem launch_comes_first (w : World) (data : JSON) (v : Validated) :
  screenshotSchema URL_ok data = inr v ->
  exists o rest,
    calls (POST URL_ok w (Request.mk (Some data))) =
      (puppeteer_launch (LaunchOptions.mk true), o) :: rest /\
    (o = Rejected -> rest = []) /\
    (forall options o', ~ In (puppeteer_launch options, o') rest).
Proof.
  intros H.
  destruct (POST_attempt URL_ok w data v H) as [Hcalls _]. rewrite Hcalls.
  pose proof (script_methods_NoDup v) as N.
  destruct (attempt_shape w (script v)) as (rest & Hs & Hk).
  rewrite Hs, map_app in N. apply NoDup_app_remove_r in N.
  destruct (fst (attempt w (script v) [])) as [|[c o] made].
  - exfalso. destruct (snd (attempt w (script v) [])).
    + destruct Hk as (resolved & c & _ & E & _). destruct resolved; discriminate.
    + destruct Hk as [-> _]. discriminate.
  - unfold script in Hs. cbn [map app fst] in Hs. injection Hs as Hc _.
    subst c. exists o, made. repeat split.
    + intros ->. destruct (snd (attempt w (script v) [])).
      * destruct Hk as (resolved & c & _ & E & R).
        destruct resolved as [|[c1 o1] resolved]; cbn [app] in E.
        -- injection E as _ E. exact E.
        -- injection E as E1 E2 E3. subst.
           now elim (R _ _ (or_introl eq_refl)).
      * destruct Hk as [_ R]. now elim (R _ _ (or_introl eq_refl)).
    + intros options o' Hin. cbn [map method fst] in N.
      inversion N as [|? ? Hn _]; subst. apply Hn.
      apply in_map_iff. exists (puppeteer_launch options).
      split; [reflexivity|].
      apply in_map_iff. exists (puppeteer_launch options, o'). auto.
Qed.

End Shape.

(** ** What a run calls, and with what *)

Section Calls.

Variable URL_ok : string -> bool.

(** X4.  Request interception belongs to noAds: a run enables interception
    or installs a listener only when noAds is true, and enables it with
    [true]; a request with noAds false intercepts nothing. *)
Theorem interception_only_with_noAds
        (w : World) (data : JSON) (v : Validated) :
  screenshotSchema URL_ok data = inr v ->
  let run := POST URL_ok w (Request.mk (Some data)) in
  (forall value o,
      In (page_setRequestInterception value, o) (calls run) ->
      noAds v = true /\ value = true) /\
  (forall event listener o,
      In (page_on event listener, o) (calls run) -> noAds v = true).
Proof.
  intros H run.
  destruct (POST_attempt URL_ok w data v H) as [Hcalls _]. fold run in Hcalls.
  rewrite Hcalls. split.
  - intros value o Hin.
    apply attempt_calls_in in Hin as [[]|Hin].
    apply in_script in Hin. unfold capture_call in Hin.
    destruct Hin as [E|[E|[E|[[A [E|E]]|[E|[(s & _ & _ & E)|[[_ E]|[E|E]]]]]]]];
      try discriminate.
    + inversion E. auto.
    + destruct (format v); discriminate.
  - intros event listener o Hin.
    apply attempt_calls_in in Hin as [[]|Hin].
    apply in_script in Hin. unfold capture_call in Hin.
    destruct Hin as [E|[E|[E|[[A [E|E]]|[E|[(s & _ & _ & E)|[[_ E]|[E|E]]]]]]]];
      try discriminate.
    + exact A.
    + destruct (format v); discriminate.
Qed.

(** X5.  The pause before the capture: a run sets a timer only when the
    validated delay is positive, for exactly that delay, which is at most
    10000 ms, and the timer fires; with a collaborator that rejects nothing
    a positive delay does set the timer.  A delay of 0 sets none. *)
Theorem timer_is_the_delay
        (w : World) (body : list (string * JSON)) (v : Validated) :
  screenshotSchema URL_ok (JObj body) = inr v ->
  let run := POST URL_ok w (Request.mk (Some (JObj body))) in
  (forall ms o,
      In (setTimeout ms, o) (calls run) ->
      ms = delay v /\ (0 < ms)%Q /\ (ms <= 10000)%Q /\ o = Resolved []) /\
  (cooperative w -> (0 < delay v)%Q ->
   In (setTimeout (delay v), Resolved []) (calls run)).
Proof.
  intros H run.
  destruct (POST_attempt URL_ok w _ v H) as [Hcalls _]. fold run in Hcalls.
  rewrite Hcalls. split.
  - intros ms o Hin.
    destruct (attempt_timer _ _ _ _ _ Hin) as [[]| ->].
    apply attempt_calls_in in Hin as [[]|Hin].
    apply in_script in Hin. unfold capture_call in Hin.
    destruct Hin as [E|[E|[E|[[A [E|E]]|[E|[(s & _ & _ & E)|[[D E]|[E|E]]]]]]]];
      try discriminate.
    + inversion E; subst. apply Qlt_bool_iff in D.
      apply screenshotSchema_inr in H.
      destruct H as (_ & _ & _ & _ & _ & _ & _ & _ & _ & Hd & _).
      repeat split; try assumption.
      destruct Hd as [[_ Hd]|(_ & _ & Hd)]; [|exact Hd].
      rewrite Hd in D. discriminate.
    + destruct (format v); discriminate.
  - intros C D.
    assert (In (setTimeout (delay v)) (script v)) as I.
    { apply in_script. apply Qlt_bool_iff in D. auto 12. }
    destruct (in_calls_of_script C I) as [o Ho].
    destruct (attempt_timer _ _ _ _ _ Ho) as [[]| ->]. exact Ho.
Qed.

(** X6.  Navigation: a run navigates only to the url string of the body,
    which the URL parser accepted, and waits for "networkidle0"; with a
    collaborator that rejects nothing it does navigate. *)
Theorem navigation_target
        (w : World) (body : list (string * JSON)) (v : Validated) :
  screenshotSchema URL_ok (JObj body) = inr v ->
  let run := POST URL_ok w (Request.mk (Some (JObj body))) in
  (forall target options o,
      In (page_goto target options, o) (calls run) ->
      get "url" body = Some (JStr target) /\
      URL_ok target = true /\
      GoToOptions.waitUntil options = "networkidle0") /\
  (cooperative w ->
   exists o,
     In (page_goto (url v) (GoToOptions.mk "networkidle0"), o) (calls run)).
Proof.
  intros H run.
  destruct (POST_attempt URL_ok w _ v H) as [Hcalls _]. fold run in Hcalls.
  rewrite Hcalls. split.
  - intros target options o Hin.
    apply attempt_calls_in in Hin as [[]|Hin].
    apply in_script in Hin. unfold capture_call in Hin.
    destruct Hin as [E|[E|[E|[[A [E|E]]|[E|[(s & _ & _ & E)|[[D E]|[E|E]]]]]]]];
      try discriminate.
    + inversion E; subst. apply screenshotSchema_inr in H.
      destruct H as ((Hu & Hok) & _). auto.
    + destruct (format v); discriminate.
  - intros C. apply (in_calls_of_script C). apply in_script. auto 12.
Qed.

(** X7.  Every request is answered in one of two ways.  Either with a
    success, and then nothing is logged; or with the generic failure, and
    then exactly one error is logged under "Screenshot error:", which tells
    what failed: the body was not JSON, or validation raised these issues
    (no call was made in either case), or this call, the last of the run,
    rejected. *)
Theorem response_and_log (w : World) (req : Request.t) :
  let run := POST URL_ok w req in
  (exists screenshot,
      response run = success_response screenshot /\ console_error run = []) \/
  (response run = failure_response /\
   ((Request.json req = None /\ calls run = [] /\
     console_error run = [("Screenshot error:", SyntaxError)]) \/
    (exists data issues,
        Request.json req = Some data /\
        screenshotSchema URL_ok data = inl issues /\
        calls run = [] /\
        console_error run = [("Screenshot error:", ZodError issues)]) \/
    (exists resolved c,
        calls run = resolved ++ [(c, Rejected)] /\
        console_error run = [("Screenshot error:", CallError c)]))).
Proof.
  intros run. subst run. destruct req as [[data|]].
  - destruct (screenshotSchema URL_ok data) as [issues|v] eqn:S.
    + right. rewrite (POST_invalid URL_ok w data issues S).
      split; [reflexivity|]. right; left. exists data, issues. auto.
    + destruct (POST_attempt URL_ok w data v S) as [Hcalls Hres].
      destruct (attempt_shape w (script v)) as (rest & _ & Hk).
      destruct (snd (attempt w (script v) [])) as [e|].
      * right. destruct Hres as [Hlog Hf]. split; [exact Hf|]. right; right.
        destruct Hk as (resolved & c & -> & E & _).
        exists resolved, c. rewrite Hcalls. auto.
      * left. destruct Hres as (Hlog & res & Hcap & Hr).
        apply capture_success in Hcap as (? & ? & bytes & ? & _ & _ & _ & Hs).
        rewrite Hr, Hs. eauto.
  - right. split; [reflexivity|]. left. auto.
Qed.

(** X8.  A body that is JSON but no object (null, a boolean, a number, a
    string, an array) is rejected with one issue at the root, before any
    call. *)
Theorem non_object_body_is_rejected (w : World) (data : JSON) :
  (forall o, data <> JObj o) ->
  POST URL_ok w (Request.mk (Some data)) =
  mkRun []
        [("Screenshot error:", ZodError [Zod.mkIssue [] Zod.invalid_type])]
        failure_response.
Proof.
  intros H. apply POST_invalid.
  destruct data; try reflexivity. now elim (H props).
Qed.

End Calls.

(** ** More on validation *)

Ltac find_issue :=
  match goal with
  | |- ?x = ?x => reflexivity
  | |- _ \/ _ => (left; find_issue) || (right; find_issue)
  end.

(** The object parse, key by key. *)
Ltac key_issue H :=
  unfold screenshotSchema;
  match goal with
  | |- context [Zod.key ?o ?k ?s] =>
      match type of H with
      | get k o = _ =>
          let E := fresh "E" in
          assert (Zod.key o k s = inl [Zod.mkIssue [k] Zod.invalid_type]) as E
              by (unfold Zod.key; rewrite H; reflexivity);
          rewrite E; clear E
      end
  end;
  split;
  [ rewrite !ap_issues; cbn [issues_of]; rewrite !in_app_iff; cbn [In];
    find_issue
  | rewrite !ap_is_ok; cbn [is_ok]; rewrite ?andb_false_r; reflexivity ].

Lemma issue_rejects (r : Zod.Result Validated) (i : Zod.Issue) :
  In i (issues_of r) /\ is_ok r = false ->
  exists issues, r = inl issues /\ In i issues.
Proof.
  destruct r as [issues|v]; cbn; intros [H O]; [eauto | discriminate].
Qed.

Section Validation.

Variable URL_ok : string -> bool.

(** X9.  Absent keys take the defaults of the schema: in a validated
    request fullSize, useProxy and noAds are false, format is png, quality
    is 80 and delay is 0 when the body has no such key, and css is
    undefined when the body has no css. *)
Theorem absent_keys_take_defaults
        (body : list (string * JSON)) (v : Validated) :
  screenshotSchema URL_ok (JObj body) = inr v ->
  (get "fullSize" body = None -> fullSize v = false) /\
  (get "useProxy" body = None -> useProxy v = false) /\
  (get "noAds" body = None -> noAds v = false) /\
  (get "format" body = None -> format v = png) /\
  (get "quality" body = None -> quality v = 80%Q) /\
  (get "delay" body = None -> delay v = 0%Q) /\
  (get "css" body = None -> css v = None).
Proof.
  intros H. apply screenshotSchema_inr in H.
  destruct H as (_ & Hf & Hp & Hn & _ & _ & _ & Hfm & Hq & Hd & Hc).
  unfold reads_default, reads_number_default, reads_number in *.
  repeat split; intros E; rewrite E in *.
  - destruct Hf as [[_ ?]|?]; [assumption | discriminate].
  - destruct Hp as [[_ ?]|?]; [assumption | discriminate].
  - destruct Hn as [[_ ?]|?]; [assumption | discriminate].
  - destruct Hfm as [[_ ?]|?]; [assumption | discriminate].
  - destruct Hq as [[_ ?]|[? _]]; [assumption | discriminate].
  - destruct Hd as [[_ ?]|[? _]]; [assumption | discriminate].
  - destruct (css v); [discriminate | reflexivity].
Qed.

(** X10.  With only the required keys in the body, and a collaborator that
    rejects nothing, the route takes a viewport-only PNG: it launches,
    opens a page, sets the viewport, navigates, takes a screenshot with
    fullPage false, type png and no quality, and closes; it intercepts
    nothing, injects nothing and does not wait. *)
Theorem required_keys_only_run
        (w : World) (body : list (string * JSON)) (v : Validated) :
  screenshotSchema URL_ok (JObj body) = inr v ->
  (forall k, In k schema_keys -> ~ In k required_keys -> get k body = None) ->
  cooperative w ->
  map fst (calls (POST URL_ok w (Request.mk (Some (JObj body))))) =
  [puppeteer_launch (LaunchOptions.mk true);
   browser_newPage;
   page_setViewport (Viewport.mk (width v) (height v) (binary64 (zoom v / 100)));
   page_goto (url v) (GoToOptions.mk "networkidle0");
   page_screenshot (ScreenshotOptions.mk false png None);
   browser_close].
Proof.
  intros H A C.
  destruct (POST_attempt URL_ok w _ v H) as [Hcalls _]. rewrite Hcalls.
  destruct (attempt_cooperative w (script v) C []) as [_ M]. rewrite M.
  apply screenshotSchema_inr in H.
  destruct H as (_ & Hf & _ & Hn & _ & _ & _ & Hfm & _ & Hd & Hc).
  unfold reads_default, reads_number_default, reads_number in *.
  rewrite (A "fullSize") in Hf by (cbn; intuition discriminate).
  rewrite (A "noAds") in Hn by (cbn; intuition discriminate).
  rewrite (A "format") in Hfm by (cbn; intuition discriminate).
  rewrite (A "delay") in Hd by (cbn; intuition discriminate).
  rewrite (A "css") in Hc by (cbn; intuition discriminate).
  destruct Hf as [[_ Hf]|?]; [|discriminate].
  destruct Hn as [[_ Hn]|?]; [|discriminate].
  destruct Hfm as [[_ Hfm]|?]; [|discriminate].
  destruct Hd as [[_ Hd]|[? _]]; [|discriminate].
  destruct (css v) eqn:Hcss; [discriminate|].
  unfold script, capture_call. rewrite Hf, Hn, Hfm, Hd, Hcss. reflexivity.
Qed.

(** X11.  Keys outside the schema are ignored: two bodies with the same
    values under the eleven keys of the schema lead to the same run. *)
Theorem unknown_keys_are_ignored (w : World) (o1 o2 : list (string * JSON)) :
  (forall k, In k schema_keys -> get k o1 = get k o2) ->
  POST URL_ok w (Request.mk (Some (JObj o1))) =
  POST URL_ok w (Request.mk (Some (JObj o2))).
Proof.
  intros A. apply POST_same_run.
  unfold screenshotSchema, Zod.key.
  rewrite (A "url"), (A "fullSize"), (A "useProxy"), (A "noAds"),
    (A "width"), (A "height"), (A "zoom"), (A "format"), (A "quality"),
    (A "delay"), (A "css") by (cbn; auto 12).
  apply same_run_refl.
Qed.

(** X12.  null is not a missing key: a body that holds null under a key of
    the schema, optional or not, is rejected with an invalid_type issue for
    that key, and no call is made. *)
Theorem null_is_rejected (w : World) (body : list (string * JSON)) (k : string) :
  In k schema_keys ->
  get k body = Some JNull ->
  exists issues,
    screenshotSchema URL_ok (JObj body) = inl issues /\
    In (Zod.mkIssue [k] Zod.invalid_type) issues /\
    calls (POST URL_ok w (Request.mk (Some (JObj body)))) = [].
Proof.
  intros Hk Hnull.
  assert (exists issues,
             screenshotSchema URL_ok (JObj body) = inl issues /\
             In (Zod.mkIssue [k] Zod.invalid_type) issues)
    as (issues & S & I).
  { apply issue_rejects. cbn [schema_keys In] in Hk.
    repeat (destruct Hk as [Hk|Hk]; [subst k; key_issue Hnull|]).
    contradiction. }
  exists issues. rewrite (POST_invalid URL_ok w _ _ S). auto.
Qed.

(** X13.  url, width, height and zoom are required: a body without one of
    them is rejected with an invalid_type issue for that key, and no call
    is made. *)
Theorem required_key_missing (w : World) (body : list (string * JSON)) (k : string) :
  In k required_keys ->
  get k body = None ->
  exists issues,
    screenshotSchema URL_ok (JObj body) = inl issues /\
    In (Zod.mkIssue [k] Zod.invalid_type) issues /\
    calls (POST URL_ok w (Request.mk (Some (JObj body)))) = [].
Proof.
  intros Hk Hnone.
  assert (exists issues,
             screenshotSchema URL_ok (JObj body) = inl issues /\
             In (Zod.mkIssue [k] Zod.invalid_type) issues)
    as (issues & S & I).
  { apply issue_rejects. cbn [required_keys In] in Hk.
    repeat (destruct Hk as [Hk|Hk]; [subst k; key_issue Hnone|]).
    contradiction. }
  exists issues. rewrite (POST_invalid URL_ok w _ _ S). auto.
Qed.

End Validation.

(** ** Options the capture does not read *)

(** Two accepted object parses, key by key. *)
Ltac invert_parses H1 H2 :=
  repeat (apply ap_inr in H1 as (? & ? & H1 & ? & ->));
  repeat (apply ap_inr in H2 as (? & ? & H2 & ? & ->));
  repeat match goal with
         | K : inr _ = inr _ |- _ => inversion K; subst; clear K
         | K : ?t = inr _, K' : ?t = inr _ |- _ =>
             rewrite K in K'; inversion K'; subst; clear K'
         end.

Section Unread.

Variable URL_ok : string -> bool.

(** X14.  quality is read for jpeg only: two bodies that agree on every key
    but quality, with quality absent or a number within 0..100 in each and
    a format other than "jpeg", lead to the same run. *)
Theorem quality_only_for_jpeg (w : World) (o1 o2 : list (string * JSON)) :
  agree_except "quality" o1 o2 ->
  absent_or (number_within 0 100) (get "quality" o1) ->
  absent_or (number_within 0 100) (get "quality" o2) ->
  get "format" o1 <> Some (JStr "jpeg") ->
  POST URL_ok w (Request.mk (Some (JObj o1))) =
  POST URL_ok w (Request.mk (Some (JObj o2))).
Proof.
  intros A Q1 Q2 F. apply POST_same_run.
  destruct (proj1 (reads_number_default_within 0 100 80 _) Q1) as [q1 R1].
  destruct (proj1 (reads_number_default_within 0 100 80 _) Q2) as [q2 R2].
  apply number_default_inr in R1, R2.
  rewrite (A "format") in F by discriminate.
  unfold screenshotSchema, Zod.key.
  rewrite (A "url"), (A "fullSize"), (A "useProxy"), (A "noAds"),
    (A "width"), (A "height"), (A "zoom"), (A "format"), (A "delay"),
    (A "css") by discriminate.
  rewrite R1, R2.
  apply same_run_intro.
  - rewrite !ap_issues. reflexivity.
  - rewrite !ap_is_ok. reflexivity.
  - intros v1 v2 H1 H2. invert_parses H1 H2.
    match goal with
    | K : match Zod.default png Zod.enum_Format _ with _ => _ end = inr ?f
      |- _ =>
        destruct f; try exact eq_refl;
        destruct (Zod.default png Zod.enum_Format (get "format" o2)) eqn:E;
        inversion K; subst;
        apply format_default_inr in E; destruct E as [[_ E]|E];
        [discriminate | contradiction]
    end.
Qed.

(** X15.  A PDF does not read fullSize: two bodies with format "pdf" that
    agree on every key but fullSize, with fullSize absent or a boolean in
    each, lead to the same run. *)
Theorem fullSize_not_read_for_pdf (w : World) (o1 o2 : list (string * JSON)) :
  agree_except "fullSize" o1 o2 ->
  absent_or is_boolean (get "fullSize" o1) ->
  absent_or is_boolean (get "fullSize" o2) ->
  get "format" o1 = Some (JStr "pdf") ->
  POST URL_ok w (Request.mk (Some (JObj o1))) =
  POST URL_ok w (Request.mk (Some (JObj o2))).
Proof.
  intros A B1 B2 F. apply POST_same_run.
  destruct (proj1 (reads_default_boolean _) B1) as [b1 R1].
  destruct (proj1 (reads_default_boolean _) B2) as [b2 R2].
  apply boolean_default_inr in R1, R2.
  rewrite (A "format") in F by discriminate.
  unfold screenshotSchema, Zod.key.
  rewrite (A "url"), (A "useProxy"), (A "noAds"), (A "width"), (A "height"),
    (A "zoom"), (A "format"), (A "quality"), (A "delay"), (A "css")
    by discriminate.
  rewrite R1, R2, F.
  change (Zod.default png Zod.enum_Format (Some (JStr "pdf"))) with
    (@inr (list Zod.IssueCode) Format pdf).
  apply same_run_intro.
  - rewrite !ap_issues. reflexivity.
  - rewrite !ap_is_ok. reflexivity.
  - intros v1 v2 H1 H2. invert_parses H1 H2. exact eq_refl.
Qed.

End Unread.

Section Closing.

Variable URL_ok : string -> bool.

(** X16.  [browser.close()] is only ever the last call of a run: when a run
    of a valid request calls it, every call before it resolved and none of
    them is a close.  So a run in which an earlier call rejects does not
    close the browser.  With a collaborator that rejects nothing the run
    does close it. *)
Theorem close_is_last (w : World) (data : JSON) (v : Validated) :
  screenshotSchema URL_ok data = inr v ->
  let run := POST URL_ok w (Request.mk (Some data)) in
  (forall o,
      In (browser_close, o) (calls run) ->
      exists before,
        calls run = before ++ [(browser_close, o)] /\
        forall c o', In (c, o') before -> c <> browser_close /\ o' <> Rejected) /\
  (cooperative w -> exists o, In (browser_close, o) (calls run)).
Proof.
  intros H run. split.
  - intros o Hin.
    destruct (POST_attempt URL_ok w data v H) as [Hcalls _].
    fold run in Hcalls.
    destruct (attempt_shape w (script v)) as (rest & Hs & Hk).
    rewrite <- Hcalls in Hs, Hk.
    assert (NoDup (map method (map fst (calls run)))) as N.
    { pose proof (script_methods_NoDup v) as N.
      rewrite Hs, map_app in N. exact (NoDup_app_remove_r _ _ N). }
    destruct (script_ends_with_close v) as (body & Hb & Hnb).
    assert (exists before last,
               calls run = before ++ [last] /\
               forall c o', In (c, o') before -> o' <> Rejected)
      as (before & [c1 o1] & E & R).
    { destruct (snd (attempt w (script v) [])).
      - destruct Hk as (resolved & c & _ & E & R). eauto.
      - destruct Hk as [-> R].
        destruct (exists_last (l := calls run)) as (before & last & E).
        { intros E. rewrite E in Hin. contradiction. }
        exists before, last. split; [exact E|].
        intros c o' Hc. apply (R c o'). rewrite E. apply in_or_app. auto. }
    rewrite E in N, Hin. rewrite !map_app in N. cbn [map fst] in N.
    apply in_app_or in Hin as [Hin|[Hin|[]]].
    + (* a close before the last call: the close of the script would be
         followed by another call *)
      exfalso. rewrite E, map_app in Hs. cbn [map fst app] in Hs.
      rewrite <- app_assoc in Hs. cbn [app] in Hs.
      apply in_split in Hin as (l1 & l2 & ->).
      rewrite map_app in Hs. cbn [map fst] in Hs.
      rewrite <- app_assoc in Hs. cbn [app] in Hs.
      rewrite Hb in Hs.
      destruct (exists_last (l := map fst l2 ++ c1 :: rest))
        as (l3 & x & E3); [destruct (map fst l2); discriminate|].
      rewrite E3 in Hs.
      replace (map fst l1 ++ browser_close :: l3 ++ [x])
        with ((map fst l1 ++ browser_close :: l3) ++ [x]) in Hs
        by (rewrite <- app_assoc; reflexivity).
      apply app_inj_tail in Hs as [Hs _]. apply Hnb. rewrite Hs.
      apply in_or_app. right. left. reflexivity.
    + inversion Hin; subst c1 o1. exists before. split; [exact E|].
      intros c o' Hc. split; [|exact (R c o' Hc)].
      intros ->. apply NoDup_remove_2 in N. apply N. rewrite app_nil_r.
      apply in_map_iff. exists browser_close. split; [reflexivity|].
      apply in_map_iff. exists (browser_close, o'). auto.
  - intros C. subst run.
    destruct (POST_attempt URL_ok w data v H) as [Hcalls _]. rewrite Hcalls.
    apply (in_calls_of_script C). apply in_script. auto 12.
Qed.

End Closing.

Section Bounds.

Variable URL_ok : string -> bool.

(** X19.  What the browser is asked for stays within the ranges of the
    schema: a viewport is between 100 and 3840 wide and between 100 and
    2160 high, with a device scale factor between 1/10 and 2, and a
    screenshot quality, when one is passed, is between 0 and 100.  The
    device scale factor is the double that [zoom / 100] is rounded to:
    rounding does not take it out of the range. *)
Theorem arguments_within_bounds
        (w : World) (body : list (string * JSON)) (v : Validated) :
  screenshotSchema URL_ok (JObj body) = inr v ->
  let run := POST URL_ok w (Request.mk (Some (JObj body))) in
  (forall viewport o,
      In (page_setViewport viewport, o) (calls run) ->
      (100 <= Viewport.width viewport <= 3840)%Q /\
      (100 <= Viewport.height viewport <= 2160)%Q /\
      (1 # 10 <= Viewport.deviceScaleFactor viewport <= 2)%Q) /\
  (forall options o q,
      In (page_screenshot options, o) (calls run) ->
      ScreenshotOptions.quality options = Some q ->
      (0 <= q <= 100)%Q).
Proof.
  intros H run.
  destruct (POST_attempt URL_ok w _ v H) as [Hcalls _]. fold run in Hcalls.
  apply screenshotSchema_inr in H.
  destruct H as (_ & _ & _ & _ & (_ & Hw1 & Hw2) & (_ & Hh1 & Hh2)
                 & (_ & Hz1 & Hz2) & _ & Hq & _).
  rewrite Hcalls. split.
  - intros viewport o Hin.
    apply attempt_calls_in in Hin as [[]|Hin].
    apply in_script in Hin. unfold capture_call in Hin.
    destruct Hin as [E|[E|[E|[[A [E|E]]|[E|[(s & _ & _ & E)|[[D E]|[E|E]]]]]]]];
      try discriminate.
    + inversion E; subst. cbn [Viewport.width Viewport.height
                                 Viewport.deviceScaleFactor].
      destruct (scale_factor_nearest (zoom v) Hz1 Hz2) as (_ & _ & Hs1 & Hs2).
      repeat split; assumption.
    + destruct (format v); discriminate.
  - intros options o q Hin Hsome.
    apply attempt_calls_in in Hin as [[]|Hin].
    apply in_script in Hin. unfold capture_call in Hin.
    destruct Hin as [E|[E|[E|[[A [E|E]]|[E|[(s & _ & _ & E)|[[D E]|[E|E]]]]]]]];
      try discriminate.
    destruct (format v); inversion E; subst; cbn in Hsome; try discriminate.
    inversion Hsome; subst.
    destruct Hq as [[_ ->]|(_ & Hq1 & Hq2)]; [split; discriminate | auto].
Qed.

(** X21.  The device scale factor passed to the viewport is zoom divided
    by 100 exactly when that quotient is a double; otherwise it is the
    double next to it. *)
Theorem scale_factor_exact_iff
        (w : World) (data : JSON) (v : Validated) :
  screenshotSchema URL_ok data = inr v ->
  let run := POST URL_ok w (Request.mk (Some data)) in
  forall viewport o,
    In (page_setViewport viewport, o) (calls run) ->
    ((Viewport.deviceScaleFactor viewport == zoom v / 100)%Q <->
     is_double (zoom v / 100)) /\
    nearest_double (zoom v / 100) (Viewport.deviceScaleFactor viewport).
Proof.
  intros H run viewport o Hin.
  destruct (POST_attempt URL_ok w _ v H) as [Hcalls _]. fold run in Hcalls.
  destruct (schema_object URL_ok data v H) as [body ->].
  apply screenshotSchema_inr in H.
  destruct H as (_ & _ & _ & _ & _ & _ & (_ & Hz1 & Hz2) & _).
  destruct (scale_factor_nearest (zoom v) Hz1 Hz2) as (N & U & _).
  rewrite Hcalls in Hin.
  apply attempt_calls_in in Hin as [[]|Hin].
  apply in_script in Hin. unfold capture_call in Hin.
  destruct Hin as [E|[E|[E|[[A [E|E]]|[E|[(s & _ & _ & E)|[[D E]|[E|E]]]]]]]];
    try discriminate; [|destruct (format v); discriminate].
  inversion E; subst. cbn [Viewport.deviceScaleFactor].
  split; [|exact N]. split.
  - intros Q. destruct N as (e & m & He & B & Hx & _).
    exists e, m. split; [exact He|]. split; [exact B|].
    rewrite <- Q. exact Hx.
  - intros (e & m & He & [B1 B2] & Hq). symmetry. apply U.
    exact (nearest_double_exact _ e m He B1 B2 Hq).
Qed.

End Bounds.

(** ** What the listener calls on an intercepted request *)

(** X20.  On one intercepted request the listener reads the resource type
    once, first; then it reads the URL not at all when the type is image,
    media or script, once when the URL contains "ads", and twice
    otherwise; and it ends with exactly one call that settles the request,
    [request.abort()] or [request.continue()], the one that
    [request_listener] decides. *)
Theorem listener_calls_per_request (request : HTTPRequest.t) :
  let type := HTTPRequest.resourceType request in
  let typed := String.eqb type "image" || String.eqb type "media"
               || String.eqb type "script" in
  exists reads : nat,
    request_listener_calls request =
      request_resourceType :: repeat request_url reads
        ++ [settles (request_listener request)] /\
    (reads <= 2)%nat /\
    (reads = 0%nat <-> typed = true) /\
    (reads = 1%nat <->
     typed = false /\ includes (HTTPRequest.url request) "ads" = true).
Proof.
  intros type typed. subst type typed.
  unfold request_listener_calls, request_listener.
  destruct request as [type url]. cbn [HTTPRequest.resourceType HTTPRequest.url].
  destruct (String.eqb type "image");
    [exists 0%nat; cbn; intuition (discriminate || lia)|].
  destruct (String.eqb type "media");
    [exists 0%nat; cbn; intuition (discriminate || lia)|].
  destruct (String.eqb type "script");
    [exists 0%nat; cbn; intuition (discriminate || lia)|].
  cbn [orb].
  destruct (includes url "ads");
    [exists 1%nat; cbn; intuition (discriminate || lia)|].
  exists 2%nat. cbn [orb repeat app].
  destruct (includes url "analytics"); cbn; intuition (discriminate || lia).
Qed.

(** ** The length of the encoding *)

Lemma sextet_length (i g : N) : String.length (Base64.sextet i g) = 1%nat.
Proof.
  rewrite sextet_digit.
  destruct (digit_value ((g / 2 ^ (6 * (3 - i))) mod 64)) as (c & -> & _);
    [apply N.mod_lt; discriminate | reflexivity].
Qed.

Lemma length_append (s1 s2 : string) :
  String.length (s1 ++ s2) = (String.length s1 + String.length s2)%nat.
Proof. induction s1 as [|c s1 IH]; cbn; [reflexivity | now rewrite IH]. Qed.

(** X18.  The base64 text of [n] bytes has 4 * ceil(n / 3) characters: four
    for every group of three bytes, the last group padded. *)
Theorem encode_length (bs : list byte) :
  String.length (Base64.encode bs) = (4 * ((List.length bs + 2) / 3))%nat.
Proof.
  induction bs as [|a|a b|a b c rest IH] using list_ind3.
  - reflexivity.
  - cbn [Base64.encode]. cbv zeta.
    rewrite !length_append, !sextet_length. reflexivity.
  - cbn [Base64.encode]. cbv zeta.
    rewrite !length_append, !sextet_length. reflexivity.
  - cbn [Base64.encode]. cbv zeta.
    rewrite !length_append, !sextet_length, IH.
    cbn [List.length].
    replace (S (S (S (List.length rest))) + 2)%nat
      with (1 * 3 + (List.length rest + 2))%nat by lia.
    rewrite Nat.div_add_l by discriminate. lia.
Qed.

(** ** The screenshot string tells the bytes *)

Section Lossless.

Variable URL_ok : string -> bool.

(** X17.  The screenshot string tells the capture: when two valid requests
    are both answered with the same screenshot string, they have the same
    format and their capture calls resolved with the same bytes. *)
Theorem screenshot_determines_bytes
        (w1 w2 : World) (data1 data2 : JSON) (v1 v2 : Validated)
        (screenshot : string) :
  screenshotSchema URL_ok data1 = inr v1 ->
  screenshotSchema URL_ok data2 = inr v2 ->
  response (POST URL_ok w1 (Request.mk (Some data1))) =
    success_response screenshot ->
  response (POST URL_ok w2 (Request.mk (Some data2))) =
    success_response screenshot ->
  format v1 = format v2 /\
  exists bytes before1 c1 closed1 before2 c2 closed2,
    calls (POST URL_ok w1 (Request.mk (Some data1))) =
      before1 ++ [(c1, Resolved bytes); (browser_close, Resolved closed1)] /\
    calls (POST URL_ok w2 (Request.mk (Some data2))) =
      before2 ++ [(c2, Resolved bytes); (browser_close, Resolved closed2)].
Proof.
  intros S1 S2 R1 R2.
  destruct (POST_attempt URL_ok w1 data1 v1 S1) as [_ H1].
  destruct (POST_attempt URL_ok w2 data2 v2 S2) as [_ H2].
  destruct (snd (attempt w1 (script v1) []));
    [destruct H1 as [_ F]; rewrite F in R1; discriminate|].
  destruct (snd (attempt w2 (script v2) []));
    [destruct H2 as [_ F]; rewrite F in R2; discriminate|].
  destruct H1 as (_ & res1 & C1 & E1). destruct H2 as (_ & res2 & C2 & E2).
  apply capture_success in C1 as (before1 & c1 & bytes1 & closed1 & T1 & _ & _ & P1).
  apply capture_success in C2 as (before2 & c2 & bytes2 & closed2 & T2 & _ & _ & P2).
  rewrite R1, P1 in E1. rewrite R2, P2 in E2.
  injection E1 as E1. injection E2 as E2. rewrite E1 in E2. clear E1.
  assert (format v1 = format v2 /\ Base64.encode bytes1 = Base64.encode bytes2)
    as [F B].
  { destruct (format v1), (format v2); cbn [append] in E2;
      try discriminate; split; try reflexivity; now inversion E2. }
  apply encode_injective in B. subst bytes2.
  split; [exact F|].
  exists bytes1, before1, c1, closed1, before2, c2, closed2. auto.
Qed.

End Lossless.

(** ** The further properties at sample requests *)

Lemma run_follows_script_witness :
  screenshotSchema sample_URL_ok (JObj example_body) = inr example_validated /\
  exists rest,
    script example_validated =
      map fst (calls (POST sample_URL_ok world_goto_rejects
                           (Request.mk (Some (JObj example_body))))) ++ rest /\
    ((rest = [] /\
      (forall c o,
          In (c, o) (calls (POST sample_URL_ok world_goto_rejects
                                 (Request.mk (Some (JObj example_body))))) ->
          o <> Rejected) /\
      exists screenshot,
        response (POST sample_URL_ok world_goto_rejects
                       (Request.mk (Some (JObj example_body)))) =
          success_response screenshot) \/
     (exists resolved c,
         calls (POST sample_URL_ok world_goto_rejects
                     (Request.mk (Some (JObj example_body)))) =
           resolved ++ [(c, Rejected)] /\
         (forall c' o, In (c', o) resolved -> o <> Rejected) /\
         response (POST sample_URL_ok world_goto_rejects
                        (Request.mk (Some (JObj example_body)))) =
           failure_response)).
Proof.
  split; [reflexivity|].
  exact (run_follows_script sample_URL_ok world_goto_rejects
           (JObj example_body) example_validated eq_refl).
Defined.

Lemma no_method_twice_witness :
  screenshotSchema sample_URL_ok (JObj ads_body) = inr ads_validated /\
  NoDup (map method
           (map fst (calls (POST sample_URL_ok world_resolves
                                 (Request.mk (Some (JObj ads_body))))))).
Proof.
  split; [reflexivity|].
  exact (no_method_twice sample_URL_ok world_resolves (JObj ads_body)
           ads_validated eq_refl).
Defined.

Lemma launch_comes_first_witness :
  screenshotSchema sample_URL_ok (JObj example_body) = inr example_validated /\
  exists o rest,
    calls (POST sample_URL_ok world_launch_rejects
                (Request.mk (Some (JObj example_body)))) =
      (puppeteer_launch (LaunchOptions.mk true), o) :: rest /\
    (o = Rejected -> rest = []) /\
    (forall options o', ~ In (puppeteer_launch options, o') rest).
Proof.
  split; [reflexivity|].
  exact (launch_comes_first sample_URL_ok world_launch_rejects
           (JObj example_body) example_validated eq_refl).
Defined.

Lemma interception_only_with_noAds_witness :
  screenshotSchema sample_URL_ok (JObj example_body) = inr example_validated /\
  noAds example_validated = false /\
  forall value o,
    ~ In (page_setRequestInterception value, o)
         (calls (POST sample_URL_ok world_resolves
                      (Request.mk (Some (JObj example_body))))).
Proof.
  split; [reflexivity|]. split; [reflexivity|].
  intros value o Hin.
  destruct (proj1 (interception_only_with_noAds sample_URL_ok world_resolves
                     (JObj example_body) example_validated eq_refl)
                  value o Hin) as [H _].
  discriminate H.
Defined.

Lemma timer_is_the_delay_witness :
  screenshotSchema sample_URL_ok (JObj delayed_body) = inr delayed_validated /\
  (0 < delay delayed_validated)%Q /\
  In (setTimeout 250, Resolved [])
     (calls (POST sample_URL_ok world_resolves
                  (Request.mk (Some (JObj delayed_body))))).
Proof.
  split; [reflexivity|]. split; [reflexivity|].
  exact (proj2 (timer_is_the_delay sample_URL_ok world_resolves
                  delayed_body delayed_validated eq_refl)
               world_resolves_cooperative eq_refl).
Defined.

Lemma navigation_target_witness :
  screenshotSchema sample_URL_ok (JObj example_body) = inr example_validated /\
  exists o,
    In (page_goto "https://example.com" (GoToOptions.mk "networkidle0"), o)
       (calls (POST sample_URL_ok world_resolves
                    (Request.mk (Some (JObj example_body))))).
Proof.
  split; [reflexivity|].
  exact (proj2 (navigation_target sample_URL_ok world_resolves
                  example_body example_validated eq_refl)
               world_resolves_cooperative).
Defined.

Lemma non_object_body_is_rejected_witness :
  (forall o, JNull <> JObj o) /\
  POST sample_URL_ok world_resolves (Request.mk (Some JNull)) =
  mkRun []
        [("Screenshot error:", ZodError [Zod.mkIssue [] Zod.invalid_type])]
        failure_response.
Proof.
  assert (forall o, JNull <> JObj o) as H by (intros o; discriminate).
  split; [exact H|].
  exact (non_object_body_is_rejected sample_URL_ok world_resolves JNull H).
Defined.

Lemma absent_keys_take_defaults_witness :
  screenshotSchema sample_URL_ok (JObj minimal_body) = inr example_validated /\
  get "format" minimal_body = None /\
  get "quality" minimal_body = None /\
  format example_validated = png /\
  quality example_validated = 80%Q.
Proof.
  split; [reflexivity|]. split; [reflexivity|]. split; [reflexivity|].
  destruct (absent_keys_take_defaults sample_URL_ok minimal_body
              example_validated eq_refl)
    as (_ & _ & _ & Hf & Hq & _).
  split; [exact (Hf eq_refl) | exact (Hq eq_refl)].
Defined.

Lemma minimal_body_optional_keys (k : string) :
  In k schema_keys -> ~ In k required_keys -> get k minimal_body = None.
Proof.
  cbn [schema_keys required_keys In]. intros H N.
  repeat (destruct H as [H|H];
          [subst k; first [reflexivity | exfalso; apply N; auto 6]|]).
  contradiction.
Qed.

Lemma required_keys_only_run_witness :
  screenshotSchema sample_URL_ok (JObj minimal_body) = inr example_validated /\
  map fst (calls (POST sample_URL_ok world_resolves
                       (Request.mk (Some (JObj minimal_body))))) =
  [puppeteer_launch (LaunchOptions.mk true);
   browser_newPage;
   page_setViewport (Viewport.mk 1280 720 (binary64 (100 / 100)));
   page_goto "https://example.com" (GoToOptions.mk "networkidle0");
   page_screenshot (ScreenshotOptions.mk false png None);
   browser_close].
Proof.
  split; [reflexivity|].
  exact (required_keys_only_run sample_URL_ok world_resolves minimal_body
           example_validated eq_refl minimal_body_optional_keys
           world_resolves_cooperative).
Defined.

Lemma extra_key_body_agrees (k : string) :
  In k schema_keys -> get k extra_key_body = get k example_body.
Proof.
  cbn [schema_keys In]. intros H.
  repeat (destruct H as [H|H]; [subst k; reflexivity|]). contradiction.
Qed.

Lemma unknown_keys_are_ignored_witness :
  get "callback" extra_key_body = Some (JStr "https://example.org/hook") /\
  get "callback" example_body = None /\
  POST sample_URL_ok world_resolves (Request.mk (Some (JObj extra_key_body))) =
  POST sample_URL_ok world_resolves (Request.mk (Some (JObj example_body))).
Proof.
  split; [reflexivity|]. split; [reflexivity|].
  exact (unknown_keys_are_ignored sample_URL_ok world_resolves
           extra_key_body example_body extra_key_body_agrees).
Defined.

Lemma null_is_rejected_witness :
  get "css" null_css_body = Some JNull /\
  exists issues,
    screenshotSchema sample_URL_ok (JObj null_css_body) = inl issues /\
    In (Zod.mkIssue ["css"] Zod.invalid_type) issues /\
    calls (POST sample_URL_ok world_resolves
                (Request.mk (Some (JObj null_css_body)))) = [].
Proof.
  split; [reflexivity|].
  apply (null_is_rejected sample_URL_ok world_resolves null_css_body "css").
  - cbn; auto 12.
  - reflexivity.
Defined.

Lemma required_key_missing_witness :
  get "zoom" no_zoom_body = None /\
  exists issues,
    screenshotSchema sample_URL_ok (JObj no_zoom_body) = inl issues /\
    In (Zod.mkIssue ["zoom"] Zod.invalid_type) issues /\
    calls (POST sample_URL_ok world_resolves
                (Request.mk (Some (JObj no_zoom_body)))) = [].
Proof.
  split; [reflexivity|].
  apply (required_key_missing sample_URL_ok world_resolves no_zoom_body "zoom").
  - cbn; auto 6.
  - reflexivity.
Defined.

Lemma quality_only_for_jpeg_witness :
  get "quality" quality_body = Some (JNum 10) /\
  get "quality" example_body = None /\
  get "format" quality_body = Some (JStr "png") /\
  POST sample_URL_ok world_resolves (Request.mk (Some (JObj quality_body))) =
  POST sample_URL_ok world_resolves (Request.mk (Some (JObj example_body))).
Proof.
  split; [reflexivity|]. split; [reflexivity|]. split; [reflexivity|].
  apply quality_only_for_jpeg.
  - apply agree_except_cons.
  - right. exists 10%Q. repeat split; unfold Qle; cbn; lia.
  - left; reflexivity.
  - discriminate.
Defined.

Lemma fullSize_not_read_for_pdf_witness :
  get "fullSize" pdf_fullSize_body = Some (JBool true) /\
  get "fullSize" pdf_body = None /\
  get "format" pdf_fullSize_body = Some (JStr "pdf") /\
  POST sample_URL_ok world_resolves
       (Request.mk (Some (JObj pdf_fullSize_body))) =
  POST sample_URL_ok world_resolves (Request.mk (Some (JObj pdf_body))).
Proof.
  split; [reflexivity|]. split; [reflexivity|]. split; [reflexivity|].
  apply fullSize_not_read_for_pdf.
  - apply agree_except_cons.
  - right. exists true. reflexivity.
  - left; reflexivity.
  - reflexivity.
Defined.

Lemma success_closes_once_witness :
  screenshotSchema sample_URL_ok (JObj example_body) = inr example_validated /\
  exists before o,
    calls (POST sample_URL_ok world_resolves
                (Request.mk (Some (JObj example_body)))) =
      before ++ [(browser_close, o)] /\
    forall o', ~ In (browser_close, o') before.
Proof.
  split; [reflexivity|].
  exact (success_closes_once sample_URL_ok world_resolves (JObj example_body)
           example_validated "data:image/png;base64,iVBORw=="%string
           eq_refl eq_refl).
Defined.

Lemma rejection_skips_close_witness :
  screenshotSchema sample_URL_ok (JObj example_body) = inr example_validated /\
  In (page_goto "https://example.com" (GoToOptions.mk "networkidle0"), Rejected)
     (calls (POST sample_URL_ok world_goto_rejects
                  (Request.mk (Some (JObj example_body))))) /\
  forall o,
    ~ In (browser_close, o)
         (calls (POST sample_URL_ok world_goto_rejects
                      (Request.mk (Some (JObj example_body))))).
Proof.
  split; [reflexivity|].
  assert (In (page_goto "https://example.com" (GoToOptions.mk "networkidle0"),
              Rejected)
             (calls (POST sample_URL_ok world_goto_rejects
                          (Request.mk (Some (JObj example_body)))))) as Hin
    by (right; right; right; left; reflexivity).
  split; [exact Hin|].
  apply (rejection_skips_close sample_URL_ok world_goto_rejects
           (JObj example_body) example_validated
           (page_goto "https://example.com" (GoToOptions.mk "networkidle0"))
           eq_refl Hin).
  discriminate.
Defined.

Lemma screenshot_determines_bytes_witness :
  format example_validated = format example_validated /\
  exists bytes before1 c1 closed1 before2 c2 closed2,
    calls (POST sample_URL_ok world_resolves
                (Request.mk (Some (JObj example_body)))) =
      before1 ++ [(c1, Resolved bytes); (browser_close, Resolved closed1)] /\
    calls (POST sample_URL_ok world_resolves
                (Request.mk (Some (JObj extra_key_body)))) =
      before2 ++ [(c2, Resolved bytes); (browser_close, Resolved closed2)].
Proof.
  exact (screenshot_determines_bytes sample_URL_ok world_resolves world_resolves
           (JObj example_body) (JObj extra_key_body)
           example_validated example_validated
           "data:image/png;base64,iVBORw=="%string
           eq_refl eq_refl eq_refl eq_refl).
Defined.

Lemma close_is_last_witness :
  screenshotSchema sample_URL_ok (JObj example_body) = inr example_validated /\
  exists o,
    In (browser_close, o)
       (calls (POST sample_URL_ok world_resolves
                    (Request.mk (Some (JObj example_body))))).
Proof.
  split; [reflexivity|].
  exact (proj2 (close_is_last sample_URL_ok world_resolves (JObj example_body)
                  example_validated eq_refl)
               world_resolves_cooperative).
Defined.

Lemma arguments_within_bounds_witness :
  screenshotSchema sample_URL_ok (JObj smallest_zoom_body) =
    inr smallest_zoom_validated /\
  binary64 (10 / 100) = (3602879701896397 # 36028797018963968)%Q /\
  In (page_setViewport (Viewport.mk 100 100 (binary64 (10 / 100))), Resolved [])
     (calls (POST sample_URL_ok world_resolves
                  (Request.mk (Some (JObj smallest_zoom_body))))) /\
  (1 # 10 <= binary64 (10 / 100) <= 2)%Q.
Proof.
  split; [reflexivity|]. split; [vm_compute; reflexivity|].
  assert (In (page_setViewport (Viewport.mk 100 100 (binary64 (10 / 100))),
              Resolved [])
             (calls (POST sample_URL_ok world_resolves
                          (Request.mk (Some (JObj smallest_zoom_body))))))
    as Hin by (right; right; left; reflexivity).
  split; [exact Hin|].
  exact (proj2 (proj2 (proj1 (arguments_within_bounds sample_URL_ok
                                 world_resolves smallest_zoom_body
                                 smallest_zoom_validated eq_refl)
                             _ _ Hin))).
Defined.

Lemma scale_factor_exact_iff_witness :
  screenshotSchema sample_URL_ok (JObj jpeg_body) = inr jpeg_validated /\
  In (page_setViewport (Viewport.mk 1280 720 (binary64 (150 / 100))),
      Resolved [])
     (calls (POST sample_URL_ok world_resolves
                  (Request.mk (Some (JObj jpeg_body))))) /\
  is_double (150 / 100) /\
  (binary64 (150 / 100) == 150 / 100)%Q.
Proof.
  split; [reflexivity|].
  assert (In (page_setViewport (Viewport.mk 1280 720 (binary64 (150 / 100))),
              Resolved [])
             (calls (POST sample_URL_ok world_resolves
                          (Request.mk (Some (JObj jpeg_body))))))
    as Hin by (right; right; left; reflexivity).
  split; [exact Hin|].
  assert (is_double (150 / 100)) as D.
  { exists 0%Z, 6755399441055744%Z.
    split; [lia|]. split; [split; vm_compute; congruence|].
    vm_compute. reflexivity. }
  split; [exact D|].
  exact (proj2 (proj1 (scale_factor_exact_iff sample_URL_ok world_resolves
                         (JObj jpeg_body) jpeg_validated eq_refl _ _ Hin))
               D).
Defined.
